(** * RAG podcast Q&A backend: a shallow embedding and its properties

    The development follows the four Python modules of the backend:
    [config.py], [rag_service.py], [main.py] and [ingest_qdrant.py].
    Python values are modelled by an inductive type, dictionaries by
    finite maps, and the methods of the service by a state-and-exception
    monad over a world made of the service object, the external systems
    (vector store, embedding model, LLM vendor) and a trace of the
    calls that were issued. *)

From Stdlib Require Import ZArith NArith List String Ascii Lia Floats.
From Stdlib Require Import DecimalString.
From stdpp Require Import base option list gmap.

Local Open Scope Z_scope.

(** ** Python strings *)

Module PyStr.

(** A Python [str] is a sequence of Unicode code points. *)
Definition char := N.
Definition pystr := list char.

(** ASCII literals of the source. *)
Definition lit (s : string) : pystr :=
  map N_of_ascii (list_ascii_of_string s).

Definition NL : pystr := [10%N].

(** [str.isspace] on one code point: the white space of the Unicode
    database, which is what [str.strip()] without argument removes. *)
Definition is_space (c : char) : bool :=
  ((9 <=? c) && (c <=? 13) || (28 <=? c) && (c <=? 32)
   || (c =? 133) || (c =? 160) || (c =? 5760)
   || (8192 <=? c) && (c <=? 8202)
   || (c =? 8232) || (c =? 8233) || (c =? 8239) || (c =? 8287)
   || (c =? 12288))%N.

Fixpoint lstrip (s : pystr) : pystr :=
  match s with
  | [] => []
  | c :: s' => if is_space c then lstrip s' else s
  end.

Definition rstrip (s : pystr) : pystr := rev (lstrip (rev s)).

(** [s.strip()] *)
Definition strip (s : pystr) : pystr := rstrip (lstrip s).

(** A string made of white space only (the empty string included). *)
Definition blank (s : pystr) : bool := forallb is_space s.

(** [not s]: truth value of a string. *)
Definition falsy (s : pystr) : bool :=
  match s with [] => true | _ => false end.

(** [len(s)] *)
Definition len {A} (s : list A) : Z := Z.of_nat (length s).

(** [s[:n]] for a non-negative literal bound [n]. *)
Definition slice_to {A} (n : nat) (s : list A) : list A := firstn n s.

(** [sep.join(parts)] *)
Fixpoint join (sep : pystr) (parts : list pystr) : pystr :=
  match parts with
  | [] => []
  | [p] => p
  | p :: rest => p ++ sep ++ join sep rest
  end.

(** [str(n)] for an integer. *)
Definition str_of_int (z : Z) : pystr :=
  lit (NilZero.string_of_int (Z.to_int z)).

(** [needle in haystack] for strings. *)
Fixpoint starts_with (p s : pystr) : bool :=
  match p, s with
  | [], _ => true
  | _ :: _, [] => false
  | a :: p', b :: s' => (a =? b)%N && starts_with p' s'
  end.

Fixpoint contains (needle s : pystr) : bool :=
  starts_with needle s ||
  match s with
  | [] => false
  | _ :: s' => contains needle s'
  end.

End PyStr.
Export PyStr.
Arguments lit : simpl never.
Arguments str_of_int : simpl never.

(** ** Python values *)

(** The values that can sit in a vector-store payload (JSON) or in a
    point id. *)
#[local] Set Warnings "-register-all".
Inductive value : Type :=
| VNone
| VBool (b : bool)
| VInt (z : Z)
| VFloat (f : float)
| VStr (s : pystr)
| VList (l : list value)
| VDict (d : gmap pystr value).

Definition is_none (v : value) : bool :=
  match v with VNone => true | _ => false end.

(** The parts of the Python runtime that are taken as given: the
    printing of floats and of nested containers, and [round]. *)
Record Builtins := {
  float_str : float -> pystr;
  container_str : value -> pystr;
  round_ndigits : float -> Z -> float
}.

Definition py_str (B : Builtins) (v : value) : pystr :=
  match v with
  | VNone => lit "None"
  | VBool true => lit "True"
  | VBool false => lit "False"
  | VInt z => str_of_int z
  | VFloat f => float_str B f
  | VStr s => s
  | VList _ | VDict _ => container_str B v
  end.

(** Truth value of an object, as tested by [if x] and [not x]. *)
Definition truthy (v : value) : bool :=
  match v with
  | VNone => false
  | VBool b => b
  | VInt z => negb (z =? 0)
  | VFloat f => negb (PrimFloat.eqb f 0%float)
  | VStr s => negb (falsy s)
  | VList l => match l with [] => false | _ => true end
  | VDict d => negb (bool_decide (d = ∅))
  end.

(** [d.get(key, default)] *)
Definition dict_get (d : gmap pystr value) (key : pystr) (dflt : value) : value :=
  default dflt (d !! key).

(** ** Exceptions and results *)

(** Every class below derives from [Exception]: [HTTPException] is
    FastAPI's (a subclass of Starlette's, itself a subclass of
    [Exception]); [VendorError] stands for whatever a third-party client
    raises. *)
Inductive exn : Type :=
| HTTPException (status_code : Z) (detail : pystr)
| ValueError (msg : pystr)
| TypeError (msg : pystr)
| AttributeError (msg : pystr)
| VendorError (msg : pystr).

(** [str(e)]; Starlette prints an [HTTPException] as
    ["{status_code}: {detail}"]. *)
Definition exn_str (e : exn) : pystr :=
  match e with
  | HTTPException code detail => str_of_int code ++ lit ": " ++ detail
  | ValueError m | TypeError m | AttributeError m | VendorError m => m
  end.

Inductive result (A : Type) : Type :=
| Ok (a : A)
| Raise (e : exn).
Arguments Ok {A} a.
Arguments Raise {A} e.

(** ** config.py *)

Record Config := {
  OPENAI_API_KEY : option pystr;
  NOTION_TOKEN : option pystr;
  QDRANT_HOST : pystr;
  QDRANT_PORT : Z;
  COLLECTION_NAME : pystr;
  EMBEDDING_MODEL : pystr;
  LLM_MODEL : pystr;
  DEFAULT_SEARCH_LIMIT : Z;
  CHUNK_SIZE : Z;
  HOST : pystr;
  PORT : Z;
  DEBUG : bool
}.

Definition of_optional (o : option pystr) : value :=
  match o with Some s => VStr s | None => VNone end.

(** [getattr(cls, key)] on the class attributes of [Config]. *)
Definition getattr (c : Config) (key : pystr) : result value :=
  if bool_decide (key = lit "OPENAI_API_KEY") then Ok (of_optional (OPENAI_API_KEY c))
  else if bool_decide (key = lit "NOTION_TOKEN") then Ok (of_optional (NOTION_TOKEN c))
  else if bool_decide (key = lit "QDRANT_HOST") then Ok (VStr (QDRANT_HOST c))
  else if bool_decide (key = lit "QDRANT_PORT") then Ok (VInt (QDRANT_PORT c))
  else if bool_decide (key = lit "COLLECTION_NAME") then Ok (VStr (COLLECTION_NAME c))
  else if bool_decide (key = lit "EMBEDDING_MODEL") then Ok (VStr (EMBEDDING_MODEL c))
  else if bool_decide (key = lit "LLM_MODEL") then Ok (VStr (LLM_MODEL c))
  else if bool_decide (key = lit "DEFAULT_SEARCH_LIMIT") then Ok (VInt (DEFAULT_SEARCH_LIMIT c))
  else if bool_decide (key = lit "CHUNK_SIZE") then Ok (VInt (CHUNK_SIZE c))
  else if bool_decide (key = lit "HOST") then Ok (VStr (HOST c))
  else if bool_decide (key = lit "PORT") then Ok (VInt (PORT c))
  else if bool_decide (key = lit "DEBUG") then Ok (VBool (DEBUG c))
  else Raise (AttributeError
         (lit "type object 'Config' has no attribute '" ++ key ++ lit "'")).

(** [[key for key in keys if not getattr(cls, key)]] *)
Fixpoint missing_among (c : Config) (keys : list pystr) : result (list pystr) :=
  match keys with
  | [] => Ok []
  | key :: rest =>
      match getattr c key with
      | Raise e => Raise e
      | Ok v =>
          match missing_among c rest with
          | Raise e => Raise e
          | Ok ms => Ok (if truthy v then ms else key :: ms)
          end
      end
  end.

Definition required_keys : list pystr := [lit "OPENAI_API_KEY"].

(** [Config.validate] *)
Definition validate (c : Config) : result bool :=
  match missing_among c required_keys with
  | Raise e => Raise e
  | Ok missing_keys =>
      if negb (bool_decide (missing_keys = []))
      then Raise (ValueError
             (lit "Missing required environment variables: "
              ++ join (lit ", ") missing_keys))
      else Ok true
  end.

(** ** The outside world and the trace of calls *)

Inductive Distance := COSINE | EUCLID | DOT | MANHATTAN.
Inductive PayloadSchemaType := KEYWORD | INTEGER | FLOAT | TEXT.
Inductive level := INFO | WARNING | ERROR.

(** [qdrant_client.http.models.ScoredPoint], the fields that are read. *)
Record ScoredPoint := {
  sp_id : value;
  sp_score : float;
  sp_payload : option (gmap pystr value)
}.

(** The arguments of a chat-completion request. *)
Record Completion := {
  c_model : pystr;
  c_messages : list (pystr * pystr);
  c_max_tokens : Z;
  c_temperature : float
}.

(** What the program does to the outside, in the order it does it. *)
Inductive event : Type :=
| NewQdrantClient (host : pystr) (port : Z)
| GetCollections
| CreateCollection (name : pystr) (size : Z) (distance : Distance)
| CreatePayloadIndex (name field : pystr) (schema : PayloadSchemaType)
| QdrantSearch (collection : pystr) (query_vector : list float) (limit : Z)
| NewSentenceTransformer (model : pystr)
| Encode (text : pystr)
| NewOpenAI
| SdkCompletion (req : Completion)
| HttpPost (url : pystr) (authorization : pystr) (req : Completion)
| Log (lvl : level) (msg : pystr)
| Print (msg : pystr).

(** The third-party systems, as functions of a state [E] of their own.
    Each call either returns or raises. *)
Record External (E : Type) := {
  qdrant_connect : pystr -> Z -> E -> result unit * E;
  qdrant_get_collections : E -> result (list pystr) * E;
  qdrant_create_collection : pystr -> Z -> Distance -> E -> result unit * E;
  qdrant_create_payload_index :
    pystr -> pystr -> PayloadSchemaType -> E -> result unit * E;
  qdrant_search : pystr -> list float -> Z -> E -> result (list ScoredPoint) * E;
  st_load : pystr -> E -> result unit * E;
  st_encode : pystr -> pystr -> E -> result (list float) * E;
  openai_new : E -> result unit * E;
  sdk_completion : Completion -> E -> result pystr * E;
  http_post : pystr -> pystr -> Completion -> E -> result pystr * E
}.
Arguments qdrant_connect {E}.
Arguments qdrant_get_collections {E}.
Arguments qdrant_create_collection {E}.
Arguments qdrant_create_payload_index {E}.
Arguments qdrant_search {E}.
Arguments st_load {E}.
Arguments st_encode {E}.
Arguments openai_new {E}.
Arguments sdk_completion {E}.
Arguments http_post {E}.

Record env (E : Type) := { ext : E; trace : list event }.
Arguments ext {E}.
Arguments trace {E}.
Arguments Build_env {E}.

(** Observers of a trace. *)
Definition is_llm_call (ev : event) : bool :=
  match ev with
  | SdkCompletion _ | HttpPost _ _ _ => true
  | _ => false
  end.

Definition is_construction (ev : event) : bool :=
  match ev with
  | NewSentenceTransformer _ | NewOpenAI => true
  | _ => false
  end.

Definition is_create_collection (ev : event) : bool :=
  match ev with
  | CreateCollection _ _ _ => true
  | _ => false
  end.

(** ** A state-and-exception monad

    [S] is the state owned by the program ([self] for a method, the
    module global for an endpoint); a raised exception keeps the state
    reached so far, as in Python. *)
Definition M (E S A : Type) : Type := S -> env E -> result A * S * env E.

Definition ret {E S A} (a : A) : M E S A := fun s en => (Ok a, s, en).

Definition raise {E S A} (e : exn) : M E S A := fun s en => (Raise e, s, en).

Definition bind {E S A B} (m : M E S A) (k : A -> M E S B) : M E S B :=
  fun s en =>
    match m s en with
    | (Ok a, s', en') => k a s' en'
    | (Raise e, s', en') => (Raise e, s', en')
    end.

Notation "'let*' x := m 'in' k" := (bind m (fun x => k))
  (at level 10, x name, m at level 100, k at level 200).

(** [try: body except Exception as e: handler(e)] *)
Definition try_except {E S A} (body : M E S A) (handler : exn -> M E S A)
  : M E S A :=
  fun s en =>
    match body s en with
    | (Ok a, s', en') => (Ok a, s', en')
    | (Raise e, s', en') => handler e s' en'
    end.

Definition get {E S} : M E S S := fun s en => (Ok s, s, en).
Definition put {E S} (s : S) : M E S unit := fun _ en => (Ok tt, s, en).

Definition emit {E S} (ev : event) : M E S unit :=
  fun s en => (Ok tt, s, {| ext := ext en; trace := trace en ++ [ev] |}).

(** A call into a third-party system: recorded, then answered. *)
Definition call {E S A} (ev : event) (f : E -> result A * E) : M E S A :=
  fun s en =>
    let '(r, x) := f (ext en) in
    (r, s, {| ext := x; trace := trace en ++ [ev] |}).

Definition logger_info {E S} (msg : pystr) : M E S unit := emit (Log INFO msg).
Definition logger_error {E S} (msg : pystr) : M E S unit := emit (Log ERROR msg).
Definition print {E S} (msg : pystr) : M E S unit := emit (Print msg).

(** [try: body except Exception as e: logger.error(f"{what}: {e}"); raise] *)
Definition logged {E S A} (what : pystr) (body : M E S A) : M E S A :=
  try_except body
    (fun e => let* _ := logger_error (what ++ lit ": " ++ exn_str e) in raise e).

(** Run a computation on an object of its own (a constructor call). *)
Definition run_on {E S T A} (m : M E T A) (t : T) : M E S (A * T) :=
  fun s en =>
    match m t en with
    | (Ok a, t', en') => (Ok (a, t'), s, en')
    | (Raise e, _, en') => (Raise e, s, en')
    end.

(** A pure computation that may raise. *)
Definition lift_result {E S A} (r : result A) : M E S A :=
  fun s en => (r, s, en).

(** ** rag_service.py *)

Inductive QdrantClient := QdrantClient_at (host : pystr) (port : Z).
Inductive SentenceTransformer := SentenceTransformer_of (name : pystr).
Inductive OpenAI := OpenAI_client.

(** The attributes of a [RAGService] object; [None] is [None]. *)
Record RAGService := {
  qdrant_client : option QdrantClient;
  embedding_model : option SentenceTransformer;
  llm_client : option OpenAI
}.

(** One entry of the list returned by [search_similar_content]: a
    dictionary with these five keys. *)
Record SearchResult := {
  id : value;
  score : float;
  podcast_tag : value;
  podcast_title : value;
  content : value
}.

(** One entry of ["sources"] in the answer of [chat]. *)
Record Source := {
  src_title : value;
  src_tag : value;
  src_score : float;
  src_content_preview : value
}.

Record ChatResult := {
  answer : pystr;
  sources : list Source;
  query : pystr
}.

Inductive QdrantHealth :=
| QdrantHealthy (collections : list pystr) (target_collection_exists : bool)
| QdrantUnhealthy (error : pystr).

Record ComponentStatus := { cs_status : pystr; cs_model : pystr }.

Record HealthStatus := {
  hs_status : pystr;
  hs_qdrant : QdrantHealth;
  hs_embedding_model : ComponentStatus;
  hs_openai : ComponentStatus
}.

Definition DQ : pystr := [34%N].

Definition none_has_no_attribute (name : pystr) : exn :=
  AttributeError (lit "'NoneType' object has no attribute '" ++ name ++ lit "'").

(** [enumerate(l, start)] *)
Fixpoint enumerate {A} (start : Z) (l : list A) : list (Z * A) :=
  match l with
  | [] => []
  | x :: l' => (start, x) :: enumerate (start + 1) l'
  end.

(** The prompt template, with its two replacement fields. *)
Inductive piece := Text (s : pystr) | FieldContext | FieldQuery.

Definition prompt_head : pystr :=
  lit "You are an AI assistant helping users understand podcast content. Use the provided context to answer the user's question accurately and comprehensively."
  ++ NL ++ NL ++ lit "Context from podcast transcripts:" ++ NL.

Definition prompt_question : pystr := NL ++ NL ++ lit "User Question: ".

Definition prompt_tail : pystr :=
  NL ++ NL ++ lit "Instructions:" ++ NL
  ++ lit "- Base your answer primarily on the provided context" ++ NL
  ++ lit "- If the context doesn't contain enough information, clearly state this" ++ NL
  ++ lit "- Provide a comprehensive and helpful answer" ++ NL
  ++ lit "- If the context is in Chinese, you can respond in both Chinese and English as appropriate" ++ NL
  ++ lit "- Be conversational and engaging" ++ NL ++ NL
  ++ lit "Answer:".

Definition template : list piece :=
  [ Text prompt_head; FieldContext; Text prompt_question; FieldQuery;
    Text prompt_tail ].

(** [template.format(query=..., context=...)] *)
Definition format (t : list piece) (query_arg context_arg : pystr) : pystr :=
  concat (map (fun p => match p with
                        | Text s => s
                        | FieldContext => context_arg
                        | FieldQuery => query_arg
                        end) t).

Definition system_message : pystr :=
  lit "You are a helpful AI assistant that answers questions based on podcast content.".

Definition no_content_answer : pystr :=
  lit "I couldn't find any relevant content to answer your question. Please try rephrasing your question or asking about a different topic.".

Definition completions_url : pystr :=
  lit "https://api.openai.com/v1/chat/completions".

Section Service.
Context {E : Type} (X : External E) (B : Builtins) (config : Config).

Definition _initialize_clients : M E RAGService unit :=
  logged (lit "Failed to initialize RAG service")
    (let* _ := call (NewQdrantClient (QDRANT_HOST config) (QDRANT_PORT config))
                    (qdrant_connect X (QDRANT_HOST config) (QDRANT_PORT config)) in
     let* self := get in
     let* _ := put {| qdrant_client :=
                        Some (QdrantClient_at (QDRANT_HOST config) (QDRANT_PORT config));
                      embedding_model := embedding_model self;
                      llm_client := llm_client self |} in
     let* _ := logger_info (lit "Connected to Qdrant at " ++ QDRANT_HOST config
                            ++ lit ":" ++ str_of_int (QDRANT_PORT config)) in
     let* self := get in
     let* _ := put {| qdrant_client := qdrant_client self;
                      embedding_model := None;
                      llm_client := llm_client self |} in
     let* _ := logger_info (lit "Embedding model deferred: " ++ EMBEDDING_MODEL config) in
     let* self := get in
     let* _ := put {| qdrant_client := qdrant_client self;
                      embedding_model := embedding_model self;
                      llm_client := None |} in
     logger_info (lit "OpenAI client deferred")).

Definition __init__ : M E RAGService unit :=
  let* _ := put {| qdrant_client := None; embedding_model := None;
                   llm_client := None |} in
  _initialize_clients.

(** [RAGService()] *)
Definition new_RAGService {S} : M E S RAGService :=
  let* r := run_on __init__
              {| qdrant_client := None; embedding_model := None;
                 llm_client := None |} in
  ret (snd r).

Definition _ensure_embedding_model : M E RAGService SentenceTransformer :=
  let* self := get in
  match embedding_model self with
  | Some model => ret model
  | None =>
      let* _ := call (NewSentenceTransformer (EMBEDDING_MODEL config))
                     (st_load X (EMBEDDING_MODEL config)) in
      let model := SentenceTransformer_of (EMBEDDING_MODEL config) in
      let* _ := put {| qdrant_client := qdrant_client self;
                       embedding_model := Some model;
                       llm_client := llm_client self |} in
      let* _ := logger_info (lit "Loaded embedding model: " ++ EMBEDDING_MODEL config) in
      ret model
  end.

Definition _ensure_llm_client : M E RAGService (option OpenAI) :=
  let* self := get in
  let* _ :=
    match llm_client self with
    | Some _ => ret tt
    | None =>
        try_except
          (let* _ := call NewOpenAI (openai_new X) in
           let* _ := put {| qdrant_client := qdrant_client self;
                            embedding_model := embedding_model self;
                            llm_client := Some OpenAI_client |} in
           logger_info (lit "Initialized OpenAI client"))
          (fun e =>
             let* _ := logger_error (lit "OpenAI client init failed: " ++ exn_str e) in
             let* self' := get in
             put {| qdrant_client := qdrant_client self';
                    embedding_model := embedding_model self';
                    llm_client := None |})
    end in
  let* self := get in
  ret (llm_client self).

(** The body of the loop that formats one scored point. *)
Definition normalize_tag (tag_value : value) : value :=
  match tag_value with
  | VList l =>
      VStr (join (lit ", ")
              (map (py_str B) (List.filter (fun t => negb (is_none t)) l)))
  | _ => tag_value
  end.

Definition format_point (scored_point : ScoredPoint) : SearchResult :=
  let payload := match sp_payload scored_point with
                 | None => ∅
                 | Some p => p
                 end in
  let tag_value := dict_get payload (lit "podcast_tag") (VStr []) in
  {| id := sp_id scored_point;
     score := sp_score scored_point;
     podcast_tag := normalize_tag tag_value;
     podcast_title := dict_get payload (lit "podcast_title") (VStr []);
     content := dict_get payload (lit "content") (VStr []) |}.

Definition search_similar_content (query : pystr) (limit : option Z)
  : M E RAGService (list SearchResult) :=
  let limit := match limit with
               | None => DEFAULT_SEARCH_LIMIT config
               | Some n => n
               end in
  logged (lit "Error searching similar content")
    (let* model := _ensure_embedding_model in
     let* query_vector :=
       call (Encode query)
            (st_encode X (let 'SentenceTransformer_of name := model in name) query) in
     let* self := get in
     let* search_result :=
       match qdrant_client self with
       | None => raise (none_has_no_attribute (lit "search"))
       | Some _ =>
           call (QdrantSearch (COLLECTION_NAME config) query_vector limit)
                (qdrant_search X (COLLECTION_NAME config) query_vector limit)
       end in
     let results := map format_point search_result in
     let* _ := logger_info (lit "Found " ++ str_of_int (len results)
                            ++ lit " similar content chunks for query: "
                            ++ slice_to 50 query ++ lit "...") in
     ret results).

Definition source_block (i : Z) (result : SearchResult) : pystr :=
  (lit "[Source " ++ str_of_int i ++ lit "] Title: '"
   ++ py_str B (podcast_title result) ++ lit "', Tag: '"
   ++ py_str B (podcast_tag result) ++ lit "'" ++ NL)
  ++ (lit "Content: " ++ py_str B (content result) ++ NL ++ NL).

Definition build_context (search_results : list SearchResult) : pystr :=
  fold_left (fun context ir => context ++ source_block (fst ir) (snd ir))
            (enumerate 1 search_results) [].

Definition generate_rag_prompt (query : pystr)
    (search_results : list SearchResult) : pystr :=
  format template query (strip (build_context search_results)).

#[local] Set Warnings "-inexact-float".
Definition completion_request (prompt : pystr) : Completion :=
  {| c_model := LLM_MODEL config;
     c_messages := [ (lit "system", system_message); (lit "user", prompt) ];
     c_max_tokens := 1000;
     c_temperature := 0.7%float |}.

Definition generate_answer (query : pystr) (search_results : list SearchResult)
  : M E RAGService pystr :=
  logged (lit "Error generating answer")
    (let prompt := generate_rag_prompt query search_results in
     let* client := _ensure_llm_client in
     match client with
     | Some _ =>
         let* answer := call (SdkCompletion (completion_request prompt))
                             (sdk_completion X (completion_request prompt)) in
         let* _ := logger_info (lit "Generated answer for query: "
                                ++ slice_to 50 query ++ lit "...") in
         ret answer
     | None =>
         let authorization :=
           lit "Bearer " ++ py_str B (of_optional (OPENAI_API_KEY config)) in
         let* answer :=
           call (HttpPost completions_url authorization (completion_request prompt))
                (http_post X completions_url authorization
                   (completion_request prompt)) in
         let* _ := logger_info (lit "Generated answer via HTTP fallback for query: "
                                ++ slice_to 50 query ++ lit "...") in
         ret answer
     end).

(** [c[:200] + "..." if len(c) > 200 else c]; only a string can be
    both measured and sliced-then-concatenated with a string. *)
Definition content_preview (c : value) : result value :=
  match c with
  | VStr s =>
      Ok (VStr (if 200 <? len s then slice_to 200 s ++ lit "..." else s))
  | VList l =>
      if 200 <? len l
      then Raise (TypeError (lit "can only concatenate list (not " ++ DQ
                             ++ lit "str" ++ DQ ++ lit ") to list"))
      else Ok c
  | VDict d =>
      if 200 <? Z.of_nat (size d)
      then Raise (TypeError (lit "unhashable type: 'slice'"))
      else Ok c
  | VNone => Raise (TypeError (lit "object of type 'NoneType' has no len()"))
  | VBool _ => Raise (TypeError (lit "object of type 'bool' has no len()"))
  | VInt _ => Raise (TypeError (lit "object of type 'int' has no len()"))
  | VFloat _ => Raise (TypeError (lit "object of type 'float' has no len()"))
  end.

Definition format_source (r : SearchResult) : result Source :=
  match content_preview (content r) with
  | Raise e => Raise e
  | Ok preview =>
      Ok {| src_title := podcast_title r;
            src_tag := podcast_tag r;
            src_score := round_ndigits B (score r) 3;
            src_content_preview := preview |}
  end.

(** The list comprehension over the results, left to right. *)
Fixpoint format_sources (search_results : list SearchResult)
  : result (list Source) :=
  match search_results with
  | [] => Ok []
  | r :: rest =>
      match format_source r with
      | Raise e => Raise e
      | Ok s =>
          match format_sources rest with
          | Raise e => Raise e
          | Ok ss => Ok (s :: ss)
          end
      end
  end.

Definition chat (query : pystr) (limit : option Z) : M E RAGService ChatResult :=
  logged (lit "Error in chat pipeline")
    (let* search_results := search_similar_content query limit in
     match search_results with
     | [] => ret {| answer := no_content_answer; sources := []; query := query |}
     | _ :: _ =>
         let* answer := generate_answer query search_results in
         let* sources := lift_result (format_sources search_results) in
         ret {| answer := answer; sources := sources; query := query |}
     end).

Definition health_check : M E RAGService HealthStatus :=
  let* qdrant :=
    try_except
      (let* self := get in
       let* collection_names :=
         match qdrant_client self with
         | None => raise (none_has_no_attribute (lit "get_collections"))
         | Some _ => call GetCollections (qdrant_get_collections X)
         end in
       ret (lit "healthy",
            QdrantHealthy collection_names
              (bool_decide (COLLECTION_NAME config ∈ collection_names))))
      (fun e => ret (lit "unhealthy", QdrantUnhealthy (exn_str e))) in
  let* self := get in
  ret {| hs_status := fst qdrant;
         hs_qdrant := snd qdrant;
         hs_embedding_model :=
           match embedding_model self with
           | None => {| cs_status := lit "deferred";
                        cs_model := EMBEDDING_MODEL config |}
           | Some _ => {| cs_status := lit "initialized";
                          cs_model := EMBEDDING_MODEL config |}
           end;
         hs_openai :=
           match llm_client self with
           | None => {| cs_status := lit "deferred";
                        cs_model := LLM_MODEL config |}
           | Some _ => {| cs_status := lit "initialized";
                          cs_model := LLM_MODEL config |}
           end |}.
End Service.

(** ** main.py *)

Record ChatRequest := { req_query : pystr; req_limit : option Z }.

Record SearchResponse := { results : list SearchResult; sr_query : pystr }.

Section Api.
Context {E : Type} (X : External E) (B : Builtins) (config : Config).

(** A method call on the module global [rag_service]. *)
Definition on_service {A} (method : pystr) (m : M E RAGService A)
  : M E (option RAGService) A :=
  fun g en =>
    match g with
    | None => (Raise (none_has_no_attribute method), g, en)
    | Some self =>
        let '(r, self', en') := m self en in (r, Some self', en')
    end.

Definition startup_event : M E (option RAGService) unit :=
  let* _ :=
    try_except
      (let* _ := lift_result (validate config) in ret tt)
      (fun e => logger_error (lit "Config validation failed: " ++ exn_str e)) in
  try_except
    (let* service := new_RAGService X config in
     let* _ := put (Some service) in
     logger_info (lit "RAG service initialized successfully"))
    (fun e =>
       let* _ := logger_error (lit "Failed to initialize RAG service: " ++ exn_str e) in
       put None).

(** [GET /api/health] *)
Definition health_check_endpoint : M E (option RAGService) HealthStatus :=
  try_except
    (let* rag_service := get in
     match rag_service with
     | None => raise (HTTPException 503 (lit "RAG service not initialized"))
     | Some _ => on_service (lit "health_check") (health_check X config)
     end)
    (fun e =>
       let* _ := logger_error (lit "Health check failed: " ++ exn_str e) in
       raise (HTTPException 500 (exn_str e))).

(** [POST /api/chat] *)
Definition chat_endpoint (request : ChatRequest)
  : M E (option RAGService) ChatResult :=
  try_except
    (let* rag_service := get in
     match rag_service with
     | None => raise (HTTPException 503 (lit "RAG service not initialized"))
     | Some _ =>
         if falsy (strip (req_query request))
         then raise (HTTPException 400 (lit "Query cannot be empty"))
         else on_service (lit "chat")
                (chat X B config (req_query request) (req_limit request))
     end)
    (fun e =>
       let* _ := logger_error (lit "Chat request failed: " ++ exn_str e) in
       raise (HTTPException 500 (exn_str e))).

(** [GET /api/search] *)
Definition search_endpoint (query : pystr) (limit : option Z)
  : M E (option RAGService) SearchResponse :=
  try_except
    (let* rag_service := get in
     match rag_service with
     | None => raise (HTTPException 503 (lit "RAG service not initialized"))
     | Some _ =>
         if falsy (strip query)
         then raise (HTTPException 400 (lit "Query cannot be empty"))
         else
           let* results :=
             on_service (lit "search_similar_content")
               (search_similar_content X B config query limit) in
           ret {| results := results; sr_query := query |}
     end)
    (fun e =>
       let* _ := logger_error (lit "Search request failed: " ++ exn_str e) in
       raise (HTTPException 500 (exn_str e))).

(** The status line the framework sends for the outcome of a route:
    200 for a returned value, the code of a raised [HTTPException],
    500 for any other exception. *)
Definition http_status {A} (r : result A) : Z :=
  match r with
  | Ok _ => 200
  | Raise (HTTPException code _) => code
  | Raise _ => 500
  end.

Definition status_of {A S} (out : result A * S * env E) : Z :=
  http_status (fst (fst out)).
End Api.

(** ** ingest_qdrant.py *)

Section Ingest.
Context {E : Type} (X : External E).

Definition ensure_collection {S} (collection_name : pystr) (vector_size : Z)
  : M E S unit :=
  let* names := call GetCollections (qdrant_get_collections X) in
  if negb (bool_decide (collection_name ∈ names))
  then
    let* _ := print (lit "Creating collection '" ++ collection_name
                     ++ lit "' with size=" ++ str_of_int vector_size
                     ++ lit " and COSINE distance...") in
    let* _ := call (CreateCollection collection_name vector_size COSINE)
                   (qdrant_create_collection X collection_name vector_size COSINE) in
    try_except
      (call (CreatePayloadIndex collection_name (lit "podcast_tag") KEYWORD)
            (qdrant_create_payload_index X collection_name
               (lit "podcast_tag") KEYWORD))
      (fun e => print (lit "Warning: create_payload_index failed: " ++ exn_str e))
  else
    print (lit "Collection '" ++ collection_name ++ lit "' already exists.").
End Ingest.

(** *** Upserting the chunks

    The calls that only the ingestion job makes (encoding a chunk,
    upserting a point) go to a journal that the job carries as its own
    state, so that their number and order can be stated. *)

(** [qdrant_client.http.models.PointStruct] *)
Record PointStruct := {
  pt_id : value;
  pt_vector : list float;
  pt_payload : gmap pystr value
}.

(** [ModelEncode text] is [model.encode(text).tolist()]; [Upsert name
    points] is [client.upsert(collection_name=name, points=points)], the
    construction of the points included: the journal keeps the arguments
    with which the step is entered. The progress bar around the loop is
    left out. *)
Inductive ingest_call : Type :=
| ModelEncode (text : value)
| Upsert (collection_name : pystr) (points : list PointStruct).

Record IngestExternal (E : Type) := {
  model_encode : value -> E -> result (list float) * E;
  client_upsert : pystr -> list PointStruct -> E -> result unit * E
}.
Arguments model_encode {E}.
Arguments client_upsert {E}.

(** A call of the ingestion job: journalled, then answered. *)
Definition journal_call {E A} (c : ingest_call) (f : E -> result A * E)
  : M E (list ingest_call) A :=
  fun journal en =>
    let '(r, x) := f (ext en) in
    (r, journal ++ [c], {| ext := x; trace := trace en |}).

(** The payload that is stored for a chunk: a dictionary with three
    keys. *)
Definition chunk_payload (chunk : gmap pystr value) : gmap pystr value :=
  <[lit "podcast_title" := dict_get chunk (lit "podcast_title") (VStr [])]>
    (<[lit "podcast_tag" := dict_get chunk (lit "podcast_tag") (VStr [])]>
      (<[lit "content" := dict_get chunk (lit "content") (VStr [])]> ∅)).

Definition chunk_point (chunk : gmap pystr value) (vector : list float)
  : PointStruct :=
  {| pt_id := dict_get chunk (lit "id") VNone;
     pt_vector := vector;
     pt_payload := chunk_payload chunk |}.

Section Upsert.
Context {E : Type} (IX : IngestExternal E).

(** The loop over the chunks. *)
Fixpoint upsert_each (chunks : list (gmap pystr value)) (collection_name : pystr)
  : M E (list ingest_call) unit :=
  match chunks with
  | [] => ret tt
  | chunk :: rest =>
      let text := dict_get chunk (lit "content") (VStr []) in
      let* vector := journal_call (ModelEncode text) (model_encode IX text) in
      let* _ := journal_call (Upsert collection_name [chunk_point chunk vector])
                  (client_upsert IX collection_name [chunk_point chunk vector]) in
      upsert_each rest collection_name
  end.

Definition upsert_chunks (chunks : list (gmap pystr value))
    (collection_name : pystr) : M E (list ingest_call) unit :=
  let* _ := print (lit "Encoding and upserting chunks into Qdrant...") in
  upsert_each chunks collection_name.
End Upsert.

(** ** An in-memory stand-in for the third-party systems

    Used to run the program on concrete inputs: a vector store that
    holds collection names and a fixed ranked list of points, an
    embedding model that returns the empty vector, and an LLM vendor that
    returns one fixed sentence. *)
Module Fake.

Record store := {
  fs_collections : list pystr;
  fs_points : list ScoredPoint;
  fs_index_ok : bool;
  fs_openai_ok : bool
}.

Definition with_collection (name : pystr) (x : store) : store :=
  {| fs_collections := fs_collections x ++ [name];
     fs_points := fs_points x;
     fs_index_ok := fs_index_ok x;
     fs_openai_ok := fs_openai_ok x |}.

Definition external : External store := {|
  qdrant_connect := fun _ _ x => (Ok tt, x);
  qdrant_get_collections := fun x => (Ok (fs_collections x), x);
  qdrant_create_collection := fun name _ _ x =>
    if bool_decide (name ∈ fs_collections x)
    then (Raise (VendorError (lit "Collection already exists")), x)
    else (Ok tt, with_collection name x);
  qdrant_create_payload_index := fun _ _ _ x =>
    if fs_index_ok x then (Ok tt, x)
    else (Raise (VendorError (lit "index unavailable")), x);
  qdrant_search := fun _ _ limit x => (Ok (take (Z.to_nat limit) (fs_points x)), x);
  st_load := fun _ x => (Ok tt, x);
  st_encode := fun _ _ x => (Ok [], x);
  openai_new := fun x =>
    if fs_openai_ok x then (Ok tt, x)
    else (Raise (VendorError (lit "no API key")), x);
  sdk_completion := fun _ x => (Ok (lit "An answer."), x);
  http_post := fun _ _ _ x => (Ok (lit "An answer over HTTP."), x)
|}.

(** A runtime for values that are strings, integers, booleans or
    [None]; floats and nested containers print as a placeholder. *)
Definition builtins : Builtins := {|
  float_str := fun _ => lit "<float>";
  container_str := fun _ => lit "<container>";
  round_ndigits := fun f _ => f
|}.

Definition config : Config := {|
  OPENAI_API_KEY := Some (lit "sk-test");
  NOTION_TOKEN := None;
  QDRANT_HOST := lit "localhost";
  QDRANT_PORT := 6333;
  COLLECTION_NAME := lit "podcast_chunks";
  EMBEDDING_MODEL := lit "paraphrase-multilingual-MiniLM-L12-v2";
  LLM_MODEL := lit "gpt-4o-mini";
  DEFAULT_SEARCH_LIMIT := 5;
  CHUNK_SIZE := 1000;
  HOST := lit "localhost";
  PORT := 8000;
  DEBUG := false
|}.

Definition point (tag : value) (title text : pystr) : ScoredPoint :=
  {| sp_id := VInt 1;
     sp_score := 1%float;
     sp_payload := Some (<[lit "podcast_tag" := tag]>
                          (<[lit "podcast_title" := VStr title]>
                            (<[lit "content" := VStr text]> ∅))) |}.

Definition empty_store : store :=
  {| fs_collections := []; fs_points := []; fs_index_ok := false;
     fs_openai_ok := true |}.

Definition store_with (pts : list ScoredPoint) : store :=
  {| fs_collections := [lit "podcast_chunks"]; fs_points := pts;
     fs_index_ok := true; fs_openai_ok := true |}.

Definition env_of (x : store) : env store := {| ext := x; trace := [] |}.

(** A service right after construction. *)
Definition service : RAGService :=
  {| qdrant_client := Some (QdrantClient_at (lit "localhost") 6333);
     embedding_model := None;
     llm_client := None |}.

End Fake.

(** ** Stand-ins for an outage and for the ingestion job *)
Module Outage.

(** The vector store refuses every call; the embedding model loads
    only if [load_ok]. *)
Definition refused {A} (x : Fake.store) : result A * Fake.store :=
  (Raise (VendorError (lit "connection refused")), x).

Definition external (load_ok : bool) : External Fake.store := {|
  qdrant_connect := fun _ _ x => refused x;
  qdrant_get_collections := fun x => refused x;
  qdrant_create_collection := fun _ _ _ x => refused x;
  qdrant_create_payload_index := fun _ _ _ x => refused x;
  qdrant_search := fun _ _ _ x => refused x;
  st_load := fun _ x =>
    if load_ok then (Ok tt, x)
    else (Raise (VendorError (lit "model not found")), x);
  st_encode := fun _ _ x => (Ok [], x);
  openai_new := fun x => (Raise (VendorError (lit "no API key")), x);
  sdk_completion := fun _ x => refused x;
  http_post := fun _ _ _ x => refused x
|}.

End Outage.

Module FakeIngest.

(** A store that keeps the points it is given, in order, and refuses
    a point without id; an encoder that returns the empty vector. *)
Definition external : IngestExternal (list PointStruct) := {|
  model_encode := fun _ x => (Ok [], x);
  client_upsert := fun _ points x =>
    if forallb (fun p => negb (is_none (pt_id p))) points
    then (Ok tt, x ++ points)
    else (Raise (VendorError (lit "invalid point id")), x)
|}.

(** The same store behind an encoder whose vector tells an empty text
    from any other. *)
Definition encoding_external : IngestExternal (list PointStruct) := {|
  model_encode := fun text x =>
    match text with
    | VStr (_ :: _) => (Ok [1%float], x)
    | _ => (Ok [0%float], x)
    end;
  client_upsert := client_upsert external
|}.

Definition chunk (i : Z) (text : pystr) : gmap pystr value :=
  <[lit "id" := VInt i]>
    (<[lit "content" := VStr text]>
      (<[lit "speaker" := VStr (lit "host")]> ∅)).

Definition chunk_without_id (text : pystr) : gmap pystr value :=
  <[lit "content" := VStr text]> ∅.

Definition start : env (list PointStruct) := {| ext := []; trace := [] |}.

End FakeIngest.

Module Samples.

Definition points : list ScoredPoint :=
  [ Fake.point (VList [VStr (lit "a"); VStr (lit "b")]) (lit "Episode 1")
      (lit "hello");
    Fake.point (VStr (lit "solo")) (lit "Episode 2") (lit "world") ].

Definition world : env Fake.store := Fake.env_of (Fake.store_with points).

(** A service whose embedding model is loaded. *)
Definition loaded_service : RAGService :=
  {| qdrant_client := Some (QdrantClient_at (lit "localhost") 6333);
     embedding_model :=
       Some (SentenceTransformer_of (lit "paraphrase-multilingual-MiniLM-L12-v2"));
     llm_client := None |}.

(** A point whose payload holds [null] for its content. *)
Definition null_content_point : ScoredPoint :=
  {| sp_id := VInt 3; sp_score := 1%float;
     sp_payload := Some (<[lit "content" := VNone]> ∅) |}.

End Samples.

(** ** Vocabulary of the properties *)

(** [only_emits P m]: whatever the state and the outside, [m] extends
    the trace, and only by events that satisfy [P]. *)
Definition only_emits {E S A} (P : event -> bool) (m : M E S A) : Prop :=
  forall s en, exists new,
    trace (snd (m s en)) = trace en ++ new /\ forallb P new = true.

(** The limit that a search passes to the store. *)
Definition effective_limit (config : Config) (limit : option Z) : Z :=
  match limit with
  | None => DEFAULT_SEARCH_LIMIT config
  | Some n => n
  end.

(** The outcome of [chat] when one of its steps raised [e]. *)
Definition chat_failed {E} (e : exn) (s : RAGService) (en : env E)
  : result ChatResult * RAGService * env E :=
  (Raise e, s,
   {| ext := ext en;
      trace := trace en ++ [Log ERROR (lit "Error in chat pipeline" ++ lit ": "
                                       ++ exn_str e)] |}).

(** The two lines of a source block. *)
Definition title_line (B : Builtins) (i : Z) (r : SearchResult) : pystr :=
  lit "[Source " ++ str_of_int i ++ lit "] Title: '"
  ++ py_str B (podcast_title r) ++ lit "', Tag: '"
  ++ py_str B (podcast_tag r) ++ lit "'" ++ NL.

Definition content_line (B : Builtins) (r : SearchResult) : pystr :=
  lit "Content: " ++ py_str B (content r).

(** The blocks of a list of results, numbered from [start], each in
    full and followed by its empty line. *)
Definition blocks (B : Builtins) (start : Z) (rs : list SearchResult) : pystr :=
  concat (map (fun ir => source_block B (fst ir) (snd ir)) (enumerate start rs)).

(** The steps of a search that reach the model or the store. *)
Definition is_search_step (ev : event) : bool :=
  match ev with
  | Encode _ | QdrantSearch _ _ _ => true
  | _ => false
  end.

(** The outcome of a search when one of its steps raised [e]. *)
Definition search_failed {E} (e : exn) (s : RAGService) (en : env E)
  : result (list SearchResult) * RAGService * env E :=
  (Raise e, s,
   {| ext := ext en;
      trace := trace en ++ [Log ERROR (lit "Error searching similar content"
                                       ++ lit ": " ++ exn_str e)] |}).

(** A search once the embedding model [name] is at hand. *)
Definition search_with_model {E} (X : External E) (B : Builtins) (config : Config)
    (name query : pystr) (lim : Z) (s : RAGService) (en : env E)
  : result (list SearchResult) * RAGService * env E :=
  match st_encode X name query (ext en) with
  | (Raise e, x1) =>
      search_failed e s {| ext := x1; trace := trace en ++ [Encode query] |}
  | (Ok vec, x1) =>
      match qdrant_client s with
      | None =>
          search_failed (none_has_no_attribute (lit "search")) s
            {| ext := x1; trace := trace en ++ [Encode query] |}
      | Some _ =>
          match qdrant_search X (COLLECTION_NAME config) vec lim x1 with
          | (Raise e, x2) =>
              search_failed e s
                {| ext := x2;
                   trace := (trace en ++ [Encode query])
                            ++ [QdrantSearch (COLLECTION_NAME config) vec lim] |}
          | (Ok pts, x2) =>
              (Ok (map (format_point B) pts), s,
               {| ext := x2;
                  trace := ((trace en ++ [Encode query])
                            ++ [QdrantSearch (COLLECTION_NAME config) vec lim])
                           ++ [Log INFO
                                 (lit "Found "
                                  ++ str_of_int (len (map (format_point B) pts))
                                  ++ lit " similar content chunks for query: "
                                  ++ slice_to 50 query ++ lit "...")] |})
          end
      end
  end.

(** The service once its embedding model is loaded. *)
Definition with_model (config : Config) (s : RAGService) : RAGService :=
  {| qdrant_client := qdrant_client s;
     embedding_model := Some (SentenceTransformer_of (EMBEDDING_MODEL config));
     llm_client := llm_client s |}.

(** The contents that the preview of [chat] accepts: a string, or a
    list or dictionary of at most 200 entries. *)
Definition previewable (c : value) : bool :=
  match c with
  | VStr _ => true
  | VList l => negb (200 <? len l)
  | VDict d => negb (200 <? Z.of_nat (size d))
  | _ => false
  end.

(** The points that a journal shows as upserted, in order. *)
Definition upserted (journal : list ingest_call) : list PointStruct :=
  concat (map (fun c => match c with
                        | Upsert _ points => points
                        | ModelEncode _ => []
                        end) journal).

(** The journal of a chunk that went through. *)
Definition chunk_calls (collection_name : pystr)
    (cv : gmap pystr value * list float) : list ingest_call :=
  [ ModelEncode (dict_get (fst cv) (lit "content") (VStr []));
    Upsert collection_name [chunk_point (fst cv) (snd cv)] ].

(** [ingested IX name x chunks vectors x']: from the outside [x], every
    chunk in turn was encoded to its vector and then upserted as one
    point, each call answered without error, and the outside is [x']
    afterwards. *)
Inductive ingested {E} (IX : IngestExternal E) (name : pystr)
  : E -> list (gmap pystr value) -> list (list float) -> E -> Prop :=
| ingested_nil x : ingested IX name x [] [] x
| ingested_cons x chunk vector x1 x2 chunks vectors x3 :
    model_encode IX (dict_get chunk (lit "content") (VStr [])) x = (Ok vector, x1) ->
    client_upsert IX name [chunk_point chunk vector] x1 = (Ok tt, x2) ->
    ingested IX name x2 chunks vectors x3 ->
    ingested IX name x (chunk :: chunks) (vector :: vectors) x3.

(** Whether answer generation has an SDK client: one is there, or
    one can be constructed now. *)
Definition sdk_available {E} (X : External E) (s : RAGService) (en : env E) : bool :=
  match llm_client s with
  | Some _ => true
  | None =>
      match fst (openai_new X (ext en)) with
      | Ok _ => true
      | Raise _ => false
      end
  end.

(** The outside as answer generation finds it once the client step is
    over. *)
Definition after_client_step {E} (X : External E) (s : RAGService) (en : env E) : E :=
  match llm_client s with
  | Some _ => ext en
  | None => snd (openai_new X (ext en))
  end.

(** The header of the HTTP fallback. *)
Definition authorization (B : Builtins) (config : Config) : pystr :=
  lit "Bearer " ++ py_str B (of_optional (OPENAI_API_KEY config)).

(** * Properties *)

(** Unfold the monad, once the methods themselves are unfolded. *)
Ltac unfold_monad :=
  unfold logger_info, logger_error, print, logged in *;
  unfold try_except, bind, get, put, ret, raise, call, emit, lift_result in *;
  cbn beta in *.

(** ** Strings *)

Lemma lstrip_nil_iff s : lstrip s = [] <-> blank s = true.
Proof.
  induction s as [|c s IH]; simpl; [tauto|].
  destruct (is_space c); simpl; [exact IH|]. split; discriminate.
Qed.

Lemma blank_rev s : blank (rev s) = blank s.
Proof.
  unfold blank. induction s as [|c s IH]; simpl; [reflexivity|].
  rewrite forallb_app, IH. simpl. rewrite andb_true_r. apply andb_comm.
Qed.

Lemma blank_lstrip s : blank (lstrip s) = blank s.
Proof.
  induction s as [|c s IH]; simpl; [reflexivity|].
  destruct (is_space c) eqn:Hc; simpl; [exact IH|]. now rewrite Hc.
Qed.

(** [not s.strip()] holds exactly for the strings made of white space
    only (the empty string included). *)
Lemma falsy_strip s : falsy (strip s) = blank s.
Proof.
  destruct (blank s) eqn:Hb.
  - assert (Hl : lstrip s = []) by now apply lstrip_nil_iff.
    unfold strip, rstrip. now rewrite Hl.
  - unfold strip, rstrip.
    destruct (rev (lstrip (rev (lstrip s)))) as [|c r] eqn:Hr; [|reflexivity].
    exfalso. apply (f_equal (@rev _)) in Hr. rewrite rev_involutive in Hr.
    simpl in Hr. apply lstrip_nil_iff in Hr.
    rewrite blank_rev, blank_lstrip in Hr. congruence.
Qed.

(** What [lstrip] removes is white space, and it stops at the first
    character that is not. *)
Lemma lstrip_split s :
  exists ws, blank ws = true /\ s = ws ++ lstrip s.
Proof.
  induction s as [|c s [ws [Hws Hs]]]; simpl.
  - exists []. auto.
  - destruct (is_space c) eqn:Hc.
    + exists (c :: ws). simpl. rewrite Hc, Hws. split; [reflexivity|].
      now f_equal.
    + exists []. auto.
Qed.

Lemma rstrip_split s :
  exists ws, blank ws = true /\ s = rstrip s ++ ws.
Proof.
  destruct (lstrip_split (rev s)) as [ws [Hws Hs]].
  exists (rev ws). split; [now rewrite blank_rev|].
  unfold rstrip. rewrite <- rev_app_distr, <- Hs. now rewrite rev_involutive.
Qed.

Lemma rstrip_blank_suffix s ws : blank ws = true -> rstrip (s ++ ws) = rstrip s.
Proof.
  intros H. unfold rstrip. rewrite rev_app_distr. f_equal.
  rewrite <- blank_rev in H. revert H.
  generalize (rev ws) as r. induction r as [|c r IH]; simpl; [reflexivity|].
  destruct (is_space c); simpl; [exact IH|discriminate].
Qed.

(** ** config.py *)

Lemma getattr_api_key c :
  getattr c (lit "OPENAI_API_KEY") = Ok (of_optional (OPENAI_API_KEY c)).
Proof. reflexivity. Qed.

(** C9. [Config.validate] raises the configuration error that lists
    [OPENAI_API_KEY] exactly when that key is absent or empty, returns
    [True] exactly otherwise, and raises nothing else: no other setting
    is looked at. *)
Theorem validate_requires_only_api_key (c : Config) :
  let missing := OPENAI_API_KEY c = None \/ OPENAI_API_KEY c = Some [] in
  let error := ValueError
    (lit "Missing required environment variables: OPENAI_API_KEY") in
  (validate c = Raise error <-> missing)
  /\ (validate c = Ok true <-> ~ missing)
  /\ (forall e, validate c = Raise e -> e = error)
  /\ (forall b, validate c = Ok b -> b = true).
Proof.
  cbv zeta. unfold validate, required_keys, missing_among.
  rewrite getattr_api_key.
  destruct (OPENAI_API_KEY c) as [[|ch key]|]; simpl.
  all: repeat split; intros; try congruence; try tauto.
  all: try (intros [H'|H']; discriminate).
  all: try match goal with H : _ \/ _ |- _ => destruct H; discriminate end.
  all: try match goal with
           | H : Raise _ = Raise ?e |- ?e = _ => injection H as <-; reflexivity
           end.
Qed.

(** ** rag_service.py: the content preview *)



(** ** main.py: what the routes answer *)

Section ApiFacts.
Context {E : Type} (X : External E) (B : Builtins) (config : Config).

(** C1. With an initialised service, a query made of white space only
    is not answered with status 400: the [HTTPException] with code 400
    that the route raises is caught by the route's own
    [except Exception] and replaced by one with code 500, whose detail
    is the text of the first. The same holds for the search route. *)
Theorem blank_query_is_answered_500
    (self : RAGService) (en : env E) (query : pystr) (limit : option Z) :
  blank query = true ->
  let chat_out :=
    chat_endpoint X B config {| req_query := query; req_limit := limit |}
      (Some self) en in
  let search_out := search_endpoint X B config query limit (Some self) en in
  fst (fst chat_out)
    = Raise (HTTPException 500 (lit "400: Query cannot be empty"))
  /\ status_of chat_out = 500
  /\ fst (fst search_out)
    = Raise (HTTPException 500 (lit "400: Query cannot be empty"))
  /\ status_of search_out = 500.
Proof.
  intros Hb. cbv zeta.
  unfold status_of, chat_endpoint, search_endpoint, try_except, bind, get.
  cbn [req_query]. rewrite falsy_strip, Hb. repeat split.
Qed.

(** C6. With no service object, the three routes do not answer 503:
    the [HTTPException] with code 503 is caught by the route's own
    [except Exception] and replaced by one with code 500. *)
Theorem uninitialized_service_is_answered_500
    (en : env E) (request : ChatRequest) (query : pystr) (limit : option Z) :
  let detail := lit "503: RAG service not initialized" in
  fst (fst (health_check_endpoint X config None en))
    = Raise (HTTPException 500 detail)
  /\ status_of (health_check_endpoint X config None en) = 500
  /\ fst (fst (chat_endpoint X B config request None en))
    = Raise (HTTPException 500 detail)
  /\ status_of (chat_endpoint X B config request None en) = 500
  /\ fst (fst (search_endpoint X B config query limit None en))
    = Raise (HTTPException 500 detail)
  /\ status_of (search_endpoint X B config query limit None en) = 500.
Proof. repeat split. Qed.

(** No route ever answers 400 or 503: every exception raised in the
    body of a route, its own [HTTPException]s included, leaves the route
    with code 500. *)
Lemma try_except_500 {S A} (body : M E S A) (what : pystr) (s : S) (en : env E) :
  let out := try_except body
    (fun e => let* _ := logger_error (what ++ exn_str e) in
              raise (HTTPException 500 (exn_str e))) s en in
  http_status (fst (fst out)) = 200 \/ http_status (fst (fst out)) = 500.
Proof.
  cbv zeta. unfold try_except.
  destruct (body s en) as [[[a|e] s'] en']; simpl; auto.
Qed.

Lemma routes_answer_200_or_500 (g : option RAGService) (en : env E)
    (request : ChatRequest) (query : pystr) (limit : option Z) :
  (status_of (health_check_endpoint X config g en) = 200
   \/ status_of (health_check_endpoint X config g en) = 500)
  /\ (status_of (chat_endpoint X B config request g en) = 200
      \/ status_of (chat_endpoint X B config request g en) = 500)
  /\ (status_of (search_endpoint X B config query limit g en) = 200
      \/ status_of (search_endpoint X B config query limit g en) = 500).
Proof.
  unfold status_of, health_check_endpoint, chat_endpoint, search_endpoint.
  repeat split; apply try_except_500.
Qed.

(** The state without service is the one that a failed start leaves:
    when the vector store cannot be reached, [startup_event] logs and
    goes on with [rag_service = None]. *)
Lemma failed_startup_leaves_no_service (g : option RAGService) (en : env E) :
  (forall host port x, exists e x', qdrant_connect X host port x = (Raise e, x')) ->
  snd (fst (startup_event X config g en)) = None
  /\ fst (fst (startup_event X config g en)) = Ok tt.
Proof.
  intros Hdown. unfold startup_event, new_RAGService, run_on, __init__,
    _initialize_clients.
  unfold_monad.
  destruct (validate config) as [b|e0]; cbn.
  - destruct (Hdown (QDRANT_HOST config) (QDRANT_PORT config) (ext en))
      as (e & x' & Hc).
    rewrite Hc. cbn. auto.
  - destruct (Hdown (QDRANT_HOST config) (QDRANT_PORT config) (ext en))
      as (e & x' & Hc).
    rewrite Hc. cbn. auto.
Qed.

End ApiFacts.

Lemma blank_query_is_answered_500_witness :
  blank (lit "  ") = true
  /\ status_of (chat_endpoint Fake.external Fake.builtins Fake.config
                  {| req_query := lit "  "; req_limit := None |}
                  (Some Fake.service) (Fake.env_of Fake.empty_store)) = 500.
Proof.
  split; [reflexivity|].
  apply (blank_query_is_answered_500 Fake.external Fake.builtins Fake.config
           Fake.service (Fake.env_of Fake.empty_store) (lit "  ") None).
  reflexivity.
Defined.

(** ** rag_service.py: the health check *)

(** C7. [health_check] always returns a report, leaves the service
    object as it was (so neither handle is constructed), issues no
    constructor call, and reports each handle as deferred exactly when
    it is [None] and as initialized exactly when it is not. *)
Theorem health_check_constructs_nothing {E} (X : External E) (config : Config)
    (self : RAGService) (en : env E) :
  exists report en' new,
    health_check X config self en = (Ok report, self, en')
    /\ trace en' = trace en ++ new
    /\ List.filter is_construction new = []
    /\ (cs_status (hs_embedding_model report) = lit "deferred"
          <-> embedding_model self = None)
    /\ (cs_status (hs_embedding_model report) = lit "initialized"
          <-> embedding_model self <> None)
    /\ (cs_status (hs_openai report) = lit "deferred"
          <-> llm_client self = None)
    /\ (cs_status (hs_openai report) = lit "initialized"
          <-> llm_client self <> None).
Proof.
  unfold health_check, try_except, bind, get, call, ret, raise.
  destruct self as [qc em lc]. cbn [qdrant_client embedding_model llm_client].
  assert (Hstat : forall (A : Type) (o : option A) (m : pystr),
    let cs := match o with
              | None => {| cs_status := lit "deferred"; cs_model := m |}
              | Some _ => {| cs_status := lit "initialized"; cs_model := m |}
              end in
    (cs_status cs = lit "deferred" <-> o = None)
    /\ (cs_status cs = lit "initialized" <-> o <> None)).
  { intros A [a|] m; simpl; split; split; intro H;
      try discriminate; try congruence; try reflexivity;
      exfalso; vm_compute in H; discriminate. }
  destruct qc as [q|].
  - destruct (qdrant_get_collections X (ext en)) as [[names|e] x] eqn:Hg.
    + do 2 eexists. exists [GetCollections]. cbn.
      split; [reflexivity|]. split; [reflexivity|]. split; [reflexivity|].
      destruct (Hstat _ em (EMBEDDING_MODEL config)) as [? ?].
      destruct (Hstat _ lc (LLM_MODEL config)) as [? ?]. auto.
    + do 2 eexists. exists [GetCollections]. cbn.
      split; [reflexivity|]. split; [reflexivity|]. split; [reflexivity|].
      destruct (Hstat _ em (EMBEDDING_MODEL config)) as [? ?].
      destruct (Hstat _ lc (LLM_MODEL config)) as [? ?]. auto.
  - do 2 eexists. exists []. cbn.
    split; [reflexivity|]. split; [now rewrite app_nil_r|]. split; [reflexivity|].
    destruct (Hstat _ em (EMBEDDING_MODEL config)) as [? ?].
    destruct (Hstat _ lc (LLM_MODEL config)) as [? ?]. auto.
Qed.

(** ** ingest_qdrant.py: the target collection *)

(** C8. Once the store has listed its collections: if the name is
    among them, [ensure_collection] returns without error after a listing
    and one message, so no create call is issued; if it is not, the
    collection is created with the given vector size and cosine distance,
    and when that succeeds a failing payload-index call is reported by a
    printed warning and [ensure_collection] still returns normally. *)
Theorem ensure_collection_idempotent {E S} (X : External E)
    (name : pystr) (size : Z) (s : S) (en : env E)
    (names : list pystr) (x1 : E) :
  qdrant_get_collections X (ext en) = (Ok names, x1) ->
  let out := ensure_collection X name size s en in
  let creating :=
    [ GetCollections;
      Print (lit "Creating collection '" ++ name ++ lit "' with size="
             ++ str_of_int size ++ lit " and COSINE distance...");
      CreateCollection name size COSINE ] in
  (name ∈ names ->
     out = (Ok tt, s,
            {| ext := x1;
               trace := trace en ++
                 [ GetCollections;
                   Print (lit "Collection '" ++ name ++ lit "' already exists.") ] |})
     /\ List.filter is_create_collection
          (skipn (length (trace en)) (trace (snd out))) = [])
  /\ (name ∉ names ->
        firstn (length (trace en) + 3) (trace (snd out)) = trace en ++ creating
        /\ forall x2,
             qdrant_create_collection X name size COSINE x1 = (Ok tt, x2) ->
             fst (fst out) = Ok tt
             /\ forall e x3,
                  qdrant_create_payload_index X name (lit "podcast_tag") KEYWORD x2
                    = (Raise e, x3) ->
                  out = (Ok tt, s,
                         {| ext := x3;
                            trace := trace en ++ creating ++
                              [ CreatePayloadIndex name (lit "podcast_tag") KEYWORD;
                                Print (lit "Warning: create_payload_index failed: "
                                       ++ exn_str e) ] |})).
Proof.
  intros Hg. cbv zeta.
  unfold ensure_collection, bind, call, print, emit, try_except.
  rewrite Hg. cbn [ext trace]. split.
  - intros Hin. rewrite bool_decide_eq_true_2 by exact Hin. cbn.
    split.
    + now rewrite <- app_assoc.
    + rewrite <- app_assoc. rewrite skipn_app, skipn_all, Nat.sub_diag. reflexivity.
  - intros Hnin. rewrite bool_decide_eq_false_2 by exact Hnin. cbn.
    destruct (qdrant_create_collection X name size COSINE x1) as [[[]|e1] x2] eqn:Hc.
    + cbn.
      destruct (qdrant_create_payload_index X name (lit "podcast_tag") KEYWORD x2)
        as [[[]|e2] x3] eqn:Hi; cbn.
      * split.
        { rewrite <- !app_assoc. cbn.
          rewrite firstn_app, firstn_all2 by lia.
          replace (length (trace en) + 3 - length (trace en))%nat with 3%nat by lia.
          reflexivity. }
        intros x2' Hx. injection Hx as <-. split; [reflexivity|].
        intros e x3' He. rewrite Hi in He. discriminate.
      * split.
        { rewrite <- !app_assoc. cbn.
          rewrite firstn_app, firstn_all2 by lia.
          replace (length (trace en) + 3 - length (trace en))%nat with 3%nat by lia.
          reflexivity. }
        intros x2' Hx. injection Hx as <-. split; [reflexivity|].
        intros e x3' He. rewrite Hi in He. injection He as <- <-.
        rewrite <- !app_assoc. reflexivity.
    + cbn. split.
      { rewrite <- !app_assoc. cbn.
        rewrite firstn_app, firstn_all2 by lia.
        replace (length (trace en) + 3 - length (trace en))%nat with 3%nat by lia.
        reflexivity. }
      intros x2' Hx. discriminate.
Qed.

Lemma ensure_collection_idempotent_witness :
  fst (fst (ensure_collection Fake.external (lit "podcast_chunks") 384 tt
              (Fake.env_of Fake.empty_store))) = Ok tt
  /\ fst (fst (ensure_collection Fake.external (lit "podcast_chunks") 384 tt
                 (Fake.env_of (Fake.store_with [])))) = Ok tt.
Proof.
  split.
  - pose proof (ensure_collection_idempotent (S := unit) Fake.external
      (lit "podcast_chunks") 384 tt (Fake.env_of Fake.empty_store)
      [] Fake.empty_store eq_refl) as [_ Hnew].
    destruct Hnew as [_ Hc]; [apply not_elem_of_nil|].
    exact (proj1 (Hc _ eq_refl)).
  - pose proof (ensure_collection_idempotent (S := unit) Fake.external
      (lit "podcast_chunks") 384 tt (Fake.env_of (Fake.store_with []))
      [lit "podcast_chunks"] (Fake.store_with []) eq_refl) as [Hold _].
    destruct Hold as [Hout _]; [apply list_elem_of_here|].
    now rewrite Hout.
Defined.

(** ** What a computation adds to the trace *)

Section Emits.
Context {E S : Type} (P : event -> bool).

Lemma only_emits_ret {A} (a : A) : only_emits P (@ret E S A a).
Proof. intros s en. exists []. now rewrite app_nil_r. Qed.

Lemma only_emits_raise {A} e : only_emits P (@raise E S A e).
Proof. intros s en. exists []. now rewrite app_nil_r. Qed.

Lemma only_emits_get : only_emits P (@get E S).
Proof. intros s en. exists []. now rewrite app_nil_r. Qed.

Lemma only_emits_put s0 : only_emits P (@put E S s0).
Proof. intros s en. exists []. now rewrite app_nil_r. Qed.

Lemma only_emits_lift {A} (r : result A) : only_emits P (@lift_result E S A r).
Proof. intros s en. exists []. now rewrite app_nil_r. Qed.

Lemma only_emits_emit ev : P ev = true -> only_emits P (@emit E S ev).
Proof. intros H s en. exists [ev]. simpl. now rewrite H. Qed.

Lemma only_emits_call {A} ev (f : E -> result A * E) :
  P ev = true -> only_emits P (@call E S A ev f).
Proof.
  intros H s en. exists [ev]. unfold call.
  destruct (f (ext en)) as [r x]. simpl. now rewrite H.
Qed.

Lemma only_emits_bind {A C} (m : M E S A) (k : A -> M E S C) :
  only_emits P m -> (forall a, only_emits P (k a)) -> only_emits P (bind m k).
Proof.
  intros Hm Hk s en. unfold bind.
  destruct (Hm s en) as [n1 [H1 P1]].
  destruct (m s en) as [[[a|e] s1] en1]; simpl in *.
  - destruct (Hk a s1 en1) as [n2 [H2 P2]].
    exists (n1 ++ n2). rewrite H2, H1, app_assoc. split; [reflexivity|].
    now rewrite forallb_app, P1, P2.
  - exists n1. auto.
Qed.

Lemma only_emits_try_except {A} (m : M E S A) (h : exn -> M E S A) :
  only_emits P m -> (forall e, only_emits P (h e)) ->
  only_emits P (try_except m h).
Proof.
  intros Hm Hh s en. unfold try_except.
  destruct (Hm s en) as [n1 [H1 P1]].
  destruct (m s en) as [[[a|e] s1] en1]; simpl in *.
  - exists n1. auto.
  - destruct (Hh e s1 en1) as [n2 [H2 P2]].
    exists (n1 ++ n2). rewrite H2, H1, app_assoc. split; [reflexivity|].
    now rewrite forallb_app, P1, P2.
Qed.

Lemma only_emits_logged {A} what (m : M E S A) :
  (forall lvl msg, P (Log lvl msg) = true) ->
  only_emits P m -> only_emits P (logged what m).
Proof.
  intros HL Hm. unfold logged. apply only_emits_try_except; [exact Hm|].
  intros e. apply only_emits_bind; [apply only_emits_emit, HL|].
  intros _. apply only_emits_raise.
Qed.

End Emits.

Lemma only_emits_run_on {E S T A} P (m : M E T A) (t : T) :
  only_emits P m -> only_emits P (@run_on E S T A m t).
Proof.
  intros Hm s en. unfold run_on. destruct (Hm t en) as [n [H1 P1]].
  exists n. destruct (m t en) as [[[a|e] t'] en']; simpl in *; auto.
Qed.

Lemma only_emits_on_service {E A} P method (m : M E RAGService A) :
  only_emits P m -> only_emits P (on_service method m).
Proof.
  intros Hm g en. unfold on_service. destruct g as [self|].
  - destruct (Hm self en) as [n [H1 P1]]. exists n.
    destruct (m self en) as [[r s'] en']; simpl in *; auto.
  - exists []. now rewrite app_nil_r.
Qed.

(** One tactic for the routine goals about traces. *)
Ltac emits :=
  repeat first
    [ apply only_emits_ret | apply only_emits_raise | apply only_emits_get
    | apply only_emits_put | apply only_emits_lift
    | apply only_emits_emit; reflexivity
    | apply only_emits_call; reflexivity
    | apply only_emits_logged; [ reflexivity | ]
    | apply only_emits_try_except; [ | intros ? ]
    | apply only_emits_bind; [ | intros ? ]
    | match goal with
      | |- only_emits _ (match ?x with _ => _ end) => destruct x
      | |- only_emits _ (if ?x then _ else _) => destruct x
      end ].

(** ** rag_service.py: search *)

Section SearchFacts.
Context {E : Type} (X : External E) (B : Builtins) (config : Config).

Lemma search_emits_no_llm_call query limit :
  only_emits (fun ev => negb (is_llm_call ev))
    (search_similar_content X B config query limit).
Proof.
  unfold search_similar_content, _ensure_embedding_model, logger_info.
  emits.
Qed.

(** A search that returns has obtained its points from the store, for
    the configured collection and the requested (or default) limit, and
    returns them formatted one by one, in the order of the store. *)
Lemma search_ok_inv query limit self en rs :
  fst (fst (search_similar_content X B config query limit self en)) = Ok rs ->
  exists points vector x x',
    qdrant_search X (COLLECTION_NAME config) vector (effective_limit config limit) x
      = (Ok points, x')
    /\ rs = map (format_point B) points.
Proof.
  unfold search_similar_content, _ensure_embedding_model.
  fold (effective_limit config limit). generalize (effective_limit config limit) as lim.
  intros lim. unfold_monad.
  destruct (embedding_model self) as [[name]|].
  - destruct (st_encode X name query (ext en)) as [[vec|e] x1]; cbn;
      [|discriminate].
    destruct (qdrant_client self); cbn; [|discriminate].
    destruct (qdrant_search X (COLLECTION_NAME config) vec lim x1)
      as [[pts|e] x2] eqn:Hq; cbn; [|discriminate].
    intros H. injection H as <-. eauto 6.
  - destruct (st_load X (EMBEDDING_MODEL config) (ext en)) as [[[]|e] x0]; cbn;
      [|discriminate].
    destruct (st_encode X (EMBEDDING_MODEL config) query x0) as [[vec|e] x1]; cbn;
      [|discriminate].
    destruct (qdrant_client self); cbn; [|discriminate].
    destruct (qdrant_search X (COLLECTION_NAME config) vec lim x1)
      as [[pts|e] x2] eqn:Hq; cbn; [|discriminate].
    intros H. injection H as <-. eauto 6.
Qed.

(** Formatting a point cannot fail: when the model loads, the query is
    encoded and the store answers, the search returns. *)
Lemma search_returns_when_the_outside_does query limit self en q :
  qdrant_client self = Some q ->
  (forall x, exists x', st_load X (EMBEDDING_MODEL config) x = (Ok tt, x')) ->
  (forall name x, exists v x', st_encode X name query x = (Ok v, x')) ->
  (forall v x, exists pts x',
     qdrant_search X (COLLECTION_NAME config) v (effective_limit config limit) x
       = (Ok pts, x')) ->
  exists rs, fst (fst (search_similar_content X B config query limit self en)) = Ok rs.
Proof.
  unfold search_similar_content, _ensure_embedding_model.
  fold (effective_limit config limit). generalize (effective_limit config limit) as lim.
  intros lim Hq Hl He Hs. unfold_monad.
  destruct (embedding_model self) as [[name]|].
  - destruct (He name (ext en)) as [v [x1 Hv]]. rewrite Hv.
    cbn. rewrite Hq. cbn.
    destruct (Hs v x1) as [pts [x2 Hp]]. rewrite Hp. cbn. eauto.
  - destruct (Hl (ext en)) as [x0 Hx]. rewrite Hx. cbn.
    destruct (He (EMBEDDING_MODEL config) x0) as [v [x1 Hv]]. rewrite Hv.
    cbn. rewrite Hq. cbn.
    destruct (Hs v x1) as [pts [x2 Hp]]. rewrite Hp. cbn. eauto.
Qed.

Lemma dict_get_some d k dflt v : d !! k = Some v -> dict_get d k dflt = v.
Proof. intros H. unfold dict_get. now rewrite H. Qed.

Lemma dict_get_none d k dflt : d !! k = None -> dict_get d k dflt = dflt.
Proof. intros H. unfold dict_get. now rewrite H. Qed.

Lemma join_map_str (ss : list pystr) :
  map (py_str B) (List.filter (fun t => negb (is_none t)) (map VStr ss)) = ss.
Proof. induction ss as [|s ss IH]; simpl; [reflexivity|now rewrite IH]. Qed.

Lemma filter_no_none (l : list value) :
  Forall (fun t => t <> VNone) l ->
  List.filter (fun t => negb (is_none t)) l = l.
Proof.
  induction 1 as [|t l Ht _ IH]; simpl; [reflexivity|].
  rewrite IH. destruct t; try reflexivity. congruence.
Qed.

(** C4. In the list that a search returns, entry by entry and in the
    order of the store: a tag that is a list in the payload has become
    the string that joins its elements (printed by [str]) with a comma
    and a space, in particular the strings themselves when the list is a
    list of strings; a tag of any other kind that is present in the
    payload is returned as it is. *)
Theorem search_normalizes_list_tags query limit self en rs :
  fst (fst (search_similar_content X B config query limit self en)) = Ok rs ->
  exists points vector x x',
    qdrant_search X (COLLECTION_NAME config) vector (effective_limit config limit) x
      = (Ok points, x')
    /\ Forall2 (fun p r =>
         forall payload, sp_payload p = Some payload ->
           (forall ss : list pystr,
              payload !! lit "podcast_tag" = Some (VList (map VStr ss)) ->
              podcast_tag r = VStr (join (lit ", ") ss))
           /\ (forall l : list value,
                 payload !! lit "podcast_tag" = Some (VList l) ->
                 Forall (fun t => t <> VNone) l ->
                 podcast_tag r = VStr (join (lit ", ") (map (py_str B) l)))
           /\ (forall v : value,
                 payload !! lit "podcast_tag" = Some v ->
                 (forall l, v <> VList l) ->
                 podcast_tag r = v))
         points rs
    /\ normalize_tag B (VList [VStr (lit "a"); VStr (lit "b")])
       = VStr (lit "a, b").
Proof.
  intros H. destruct (search_ok_inv _ _ _ _ _ H) as (pts & vec & x & x' & Hq & ->).
  exists pts, vec, x, x'. split; [exact Hq|]. split; [|reflexivity].
  clear. induction pts as [|p pts IH]; simpl; constructor; [|exact IH].
  intros payload Hp. unfold format_point. rewrite Hp.
  cbn [podcast_tag]. repeat split.
  - intros ss Hs. rewrite (dict_get_some _ _ _ _ Hs).
    unfold normalize_tag. now rewrite join_map_str.
  - intros l Hs Hl. rewrite (dict_get_some _ _ _ _ Hs).
    unfold normalize_tag. now rewrite filter_no_none.
  - intros v Hs Hv. rewrite (dict_get_some _ _ _ _ Hs).
    destruct v; try reflexivity. now destruct (Hv l).
Qed.

(** C10. In the list that a search returns, entry by entry: a point
    without payload, or whose payload lacks the title, the tag or the
    content, gets the empty string for what is missing; and [None]
    entries of a list-valued tag do not show in the joined string:
    the string is that of the list without them, every remaining entry
    printed by [str]. *)
Theorem search_defaults_missing_fields query limit self en rs :
  fst (fst (search_similar_content X B config query limit self en)) = Ok rs ->
  exists points vector x x',
    qdrant_search X (COLLECTION_NAME config) vector (effective_limit config limit) x
      = (Ok points, x')
    /\ Forall2 (fun p r =>
         (sp_payload p = None ->
            podcast_title r = VStr [] /\ podcast_tag r = VStr []
            /\ content r = VStr [])
         /\ (forall payload, sp_payload p = Some payload ->
               (payload !! lit "podcast_title" = None -> podcast_title r = VStr [])
               /\ (payload !! lit "podcast_tag" = None -> podcast_tag r = VStr [])
               /\ (payload !! lit "content" = None -> content r = VStr [])
               /\ (forall l1 l2 : list value,
                     payload !! lit "podcast_tag" = Some (VList (l1 ++ VNone :: l2)) ->
                     podcast_tag r = normalize_tag B (VList (l1 ++ l2)))
               /\ (forall l : list value,
                     payload !! lit "podcast_tag" = Some (VList l) ->
                     podcast_tag r
                     = VStr (join (lit ", ")
                               (map (py_str B)
                                  (List.filter (fun t => negb (is_none t)) l))))))
         points rs
    /\ normalize_tag B (VList [VStr (lit "a"); VNone; VStr (lit "b")])
       = VStr (lit "a, b").
Proof.
  intros H. destruct (search_ok_inv _ _ _ _ _ H) as (pts & vec & x & x' & Hq & ->).
  exists pts, vec, x, x'. split; [exact Hq|]. split; [|reflexivity].
  clear. induction pts as [|p pts IH]; simpl; constructor; [|exact IH].
  unfold format_point. split.
  - intros ->. cbn [podcast_title podcast_tag content].
    rewrite !dict_get_none by apply lookup_empty. auto.
  - intros payload ->. cbn [podcast_title podcast_tag content]. repeat split.
    + intros H. now rewrite (dict_get_none _ _ _ H).
    + intros H. now rewrite (dict_get_none _ _ _ H).
    + intros H. now rewrite (dict_get_none _ _ _ H).
    + intros l1 l2 H. rewrite (dict_get_some _ _ _ _ H). unfold normalize_tag.
      rewrite !List.filter_app. reflexivity.
    + intros l H. now rewrite (dict_get_some _ _ _ _ H).
Qed.

End SearchFacts.

Lemma search_normalizes_list_tags_witness :
  let pts := [ Fake.point (VList [VStr (lit "a"); VStr (lit "b")])
                 (lit "Episode 1") (lit "hello");
               Fake.point (VStr (lit "solo")) (lit "Episode 2") (lit "world") ] in
  fst (fst (search_similar_content Fake.external Fake.builtins Fake.config
              (lit "q") None Fake.service (Fake.env_of (Fake.store_with pts))))
    = Ok (map (format_point Fake.builtins) pts)
  /\ map podcast_tag (map (format_point Fake.builtins) pts)
     = [VStr (lit "a, b"); VStr (lit "solo")]
  /\ exists points : list ScoredPoint, length points = 2%nat.
Proof.
  intros pts.
  assert (Hrun : fst (fst (search_similar_content Fake.external Fake.builtins
                             Fake.config (lit "q") None Fake.service
                             (Fake.env_of (Fake.store_with pts))))
                 = Ok (map (format_point Fake.builtins) pts))
    by (vm_compute; reflexivity).
  split; [exact Hrun|]. split; [vm_compute; reflexivity|].
  destruct (search_normalizes_list_tags Fake.external Fake.builtins Fake.config
              (lit "q") None Fake.service (Fake.env_of (Fake.store_with pts))
              _ Hrun) as (points & _ & _ & _ & _ & HF & _).
  exists points. apply Forall2_length in HF. exact HF.
Defined.

Lemma search_defaults_missing_fields_witness :
  let pts := [ {| sp_id := VInt 1; sp_score := 1%float; sp_payload := None |};
               Fake.point (VList [VStr (lit "a"); VNone; VStr (lit "b")])
                 (lit "Episode 2") (lit "world") ] in
  fst (fst (search_similar_content Fake.external Fake.builtins Fake.config
              (lit "q") None Fake.service (Fake.env_of (Fake.store_with pts))))
    = Ok (map (format_point Fake.builtins) pts)
  /\ map podcast_tag (map (format_point Fake.builtins) pts)
     = [VStr []; VStr (lit "a, b")]
  /\ exists points : list ScoredPoint, length points = 2%nat.
Proof.
  intros pts.
  assert (Hrun : fst (fst (search_similar_content Fake.external Fake.builtins
                             Fake.config (lit "q") None Fake.service
                             (Fake.env_of (Fake.store_with pts))))
                 = Ok (map (format_point Fake.builtins) pts))
    by (vm_compute; reflexivity).
  split; [exact Hrun|]. split; [vm_compute; reflexivity|].
  destruct (search_defaults_missing_fields Fake.external Fake.builtins Fake.config
              (lit "q") None Fake.service (Fake.env_of (Fake.store_with pts))
              _ Hrun) as (points & _ & _ & _ & _ & HF & _).
  exists points. apply Forall2_length in HF. exact HF.
Defined.

(** ** rag_service.py: the chat pipeline *)

Section ChatFacts.
Context {E : Type} (X : External E) (B : Builtins) (config : Config).

Lemma no_llm_call_filter (new : list event) :
  forallb (fun ev => negb (is_llm_call ev)) new = true ->
  List.filter is_llm_call new = [].
Proof.
  induction new as [|ev new IH]; simpl; [reflexivity|].
  destruct (is_llm_call ev); simpl; [discriminate|exact IH].
Qed.

(** Answer generation always reaches the vendor: through the SDK when
    a client is or can be constructed, over HTTP otherwise. *)
Lemma generate_answer_calls_llm query search_results self en :
  exists new,
    trace (snd (generate_answer X B config query search_results self en))
      = trace en ++ new
    /\ List.filter is_llm_call new <> [].
Proof.
  unfold generate_answer, _ensure_llm_client. unfold_monad.
  set (prompt := generate_rag_prompt B query search_results).
  set (req := completion_request config prompt).
  destruct (llm_client self) as [c|] eqn:Hc; cbn.
  - rewrite Hc.
    destruct (sdk_completion X req (ext en)) as [[a|e] x1]; cbn.
    + exists [SdkCompletion req; Log INFO (lit "Generated answer for query: "
                                           ++ slice_to 50 query ++ lit "...")].
      split; [now rewrite <- app_assoc|discriminate].
    + eexists [SdkCompletion req; Log ERROR _].
      split; [now rewrite <- app_assoc|discriminate].
  - destruct (openai_new X (ext en)) as [[[]|e0] x0]; cbn.
    + destruct (sdk_completion X req x0) as [[a|e] x1]; cbn.
      * eexists [NewOpenAI; Log INFO _; SdkCompletion req; Log INFO _].
        split; [now rewrite <- !app_assoc|discriminate].
      * eexists [NewOpenAI; Log INFO _; SdkCompletion req; Log ERROR _].
        split; [now rewrite <- !app_assoc|discriminate].
    + destruct (http_post X completions_url _ req x0) as [[a|e] x1]; cbn.
      * eexists [NewOpenAI; Log ERROR _; HttpPost _ _ req; Log INFO _].
        split; [now rewrite <- !app_assoc|discriminate].
      * eexists [NewOpenAI; Log ERROR _; HttpPost _ _ req; Log ERROR _].
        split; [now rewrite <- !app_assoc|discriminate].
Qed.

(** [chat], step by step. *)
Lemma chat_eq query limit self en :
  chat X B config query limit self en =
  match search_similar_content X B config query limit self en with
  | (Raise e, s1, en1) => chat_failed e s1 en1
  | (Ok [], s1, en1) =>
      (Ok {| answer := no_content_answer; sources := []; query := query |},
       s1, en1)
  | (Ok (r :: rs), s1, en1) =>
      match generate_answer X B config query (r :: rs) s1 en1 with
      | (Raise e, s2, en2) => chat_failed e s2 en2
      | (Ok ans, s2, en2) =>
          match format_sources B (r :: rs) with
          | Raise e => chat_failed e s2 en2
          | Ok srcs =>
              (Ok {| answer := ans; sources := srcs; query := query |}, s2, en2)
          end
      end
  end.
Proof.
  unfold chat, chat_failed. unfold_monad.
  destruct (search_similar_content X B config query limit self en)
    as [[[[|r rs]|e] s1] en1]; try reflexivity.
  destruct (generate_answer X B config query (r :: rs) s1 en1)
    as [[[ans|e] s2] en2]; try reflexivity.
  destruct (format_sources B (r :: rs)) as [srcs|e]; reflexivity.
Qed.

(** C2. Running [chat] extends the trace by calls among which there is
    a completion request to the LLM vendor exactly when the search step
    returned a list with at least one result; and when the search step
    returned the empty list, [chat] returns the fixed answer, no sources
    and the query as given, in the state the search left. *)
Theorem chat_calls_llm_iff_results query limit self en :
  let found := search_similar_content X B config query limit self en in
  let out := chat X B config query limit self en in
  exists new,
    trace (snd out) = trace en ++ new
    /\ (List.filter is_llm_call new <> []
        <-> exists r rs, fst (fst found) = Ok (r :: rs))
    /\ (fst (fst found) = Ok [] ->
        List.filter is_llm_call new = []
        /\ out = (Ok {| answer := no_content_answer; sources := [];
                        query := query |},
                  snd (fst found), snd found)).
Proof.
  cbv zeta. rewrite chat_eq. unfold chat_failed.
  destruct (search_emits_no_llm_call X B config query limit self en)
    as [n1 [H1 P1]].
  apply no_llm_call_filter in P1.
  destruct (search_similar_content X B config query limit self en)
    as [[[rs|e] s1] en1] eqn:Hs; cbn [fst snd] in *.
  - destruct rs as [|r rs].
    + cbn [fst snd]. exists n1. split; [exact H1|]. split.
      * split; [congruence|]. intros (r & rs & Hr). discriminate Hr.
      * intros _. split; [exact P1|reflexivity].
    + destruct (generate_answer_calls_llm query (r :: rs) s1 en1) as [n2 [H2 P2]].
      destruct (generate_answer X B config query (r :: rs) s1 en1)
        as [[[ans|e] s2] en2]; cbn [fst snd] in *.
      * destruct (format_sources B (r :: rs)) as [srcs|e]; cbn [fst snd trace].
        { exists (n1 ++ n2). rewrite H2, H1. split; [now rewrite <- !(@app_assoc event)|].
          split; [|discriminate]. split; [eauto|]. intros _.
          rewrite List.filter_app, P1. exact P2. }
        { exists (n1 ++ n2 ++ [Log ERROR (lit "Error in chat pipeline" ++ lit ": "
                                           ++ exn_str e)]).
          rewrite H2, H1. split; [now rewrite <- !(@app_assoc event)|].
          split; [|discriminate]. split; [eauto|]. intros _.
          rewrite !List.filter_app, P1. cbn. rewrite app_nil_r. exact P2. }
      * cbn [fst snd trace].
        exists (n1 ++ n2 ++ [Log ERROR (lit "Error in chat pipeline" ++ lit ": "
                                         ++ exn_str e)]).
        rewrite H2, H1. split; [now rewrite <- !(@app_assoc event)|].
        split; [|discriminate]. split; [eauto|]. intros _.
        rewrite !List.filter_app, P1. cbn. rewrite app_nil_r. exact P2.
  - cbn [fst snd trace].
    exists (n1 ++ [Log ERROR (lit "Error in chat pipeline" ++ lit ": "
                              ++ exn_str e)]).
    rewrite H1. split; [now rewrite <- !(@app_assoc event)|]. split; [|discriminate].
    rewrite List.filter_app, P1. cbn. split; [congruence|].
    intros (r & rs & Hr). discriminate Hr.
Qed.

(** The sources that [chat] returns are the results of the search,
    formatted one by one. *)
Lemma chat_sources query limit self en response :
  fst (fst (chat X B config query limit self en)) = Ok response ->
  exists rs,
    fst (fst (search_similar_content X B config query limit self en)) = Ok rs
    /\ format_sources B rs = Ok (sources response).
Proof.
  rewrite chat_eq. unfold chat_failed.
  destruct (search_similar_content X B config query limit self en)
    as [[[rs|e] s1] en1]; cbn [fst snd]; [|discriminate].
  destruct rs as [|r rs].
  - cbn. intros H. injection H as <-. eauto.
  - destruct (generate_answer X B config query (r :: rs) s1 en1)
      as [[[ans|e] s2] en2]; cbn [fst snd]; [|discriminate].
    destruct (format_sources B (r :: rs)) as [srcs|e] eqn:Hf; cbn [fst snd];
      [|discriminate].
    intros H. injection H as <-. exists (r :: rs). cbn [sources]. auto.
Qed.

End ChatFacts.

(** The two cases on the in-memory stand-in: one stored point, then
    none. *)
Example chat_with_a_result_calls_the_vendor :
  let out := chat Fake.external Fake.builtins Fake.config (lit "q") None
               Fake.service
               (Fake.env_of (Fake.store_with
                  [Fake.point (VStr (lit "news")) (lit "Episode 1") (lit "hello")])) in
  fst (fst out)
    = Ok {| answer := lit "An answer.";
            sources := [ {| src_title := VStr (lit "Episode 1");
                            src_tag := VStr (lit "news");
                            src_score := 1%float;
                            src_content_preview := VStr (lit "hello") |} ];
            query := lit "q" |}
  /\ length (List.filter is_llm_call (trace (snd out))) = 1%nat
  /\ llm_client (snd (fst out)) = Some OpenAI_client.
Proof. vm_compute. repeat split. Qed.

Example chat_without_result_stays_local :
  let out := chat Fake.external Fake.builtins Fake.config (lit "q") None
               Fake.service (Fake.env_of (Fake.store_with [])) in
  fst (fst out)
    = Ok {| answer := no_content_answer; sources := []; query := lit "q" |}
  /\ List.filter is_llm_call (trace (snd out)) = []
  /\ llm_client (snd (fst out)) = None.
Proof. vm_compute. repeat split. Qed.

(** ** rag_service.py: the prompt *)

Lemma lstrip_app_nonblank a b : blank a = false -> lstrip (a ++ b) = lstrip a ++ b.
Proof.
  induction a as [|c a IH]; simpl; [discriminate|].
  destruct (is_space c); simpl; [exact IH|reflexivity].
Qed.

(** [rstrip] works on the last piece of a string when that piece has a
    character which is not white space. *)
Lemma rstrip_app_nonblank s t : blank t = false -> rstrip (s ++ t) = s ++ rstrip t.
Proof.
  intros H. unfold rstrip. rewrite rev_app_distr.
  rewrite lstrip_app_nonblank by now rewrite blank_rev.
  now rewrite rev_app_distr, rev_involutive.
Qed.

Lemma enumerate_app {A} (l1 l2 : list A) start :
  enumerate start (l1 ++ l2)
  = enumerate start l1 ++ enumerate (start + Z.of_nat (length l1)) l2.
Proof.
  revert start. induction l1 as [|x l1 IH]; intros start; simpl.
  - now rewrite Z.add_0_r.
  - rewrite IH. do 3 f_equal. lia.
Qed.

Lemma fold_left_concat {A} (f : A -> pystr) (l : list A) (acc : pystr) :
  fold_left (fun context x => context ++ f x) l acc = acc ++ concat (map f l).
Proof.
  revert acc. induction l as [|x l IH]; intros acc; simpl.
  - now rewrite app_nil_r.
  - now rewrite IH, app_assoc.
Qed.

Section PromptFacts.
Context (B : Builtins).

Lemma build_context_blocks rs : build_context B rs = blocks B 1 rs.
Proof. unfold build_context, blocks. now rewrite fold_left_concat. Qed.

Lemma source_block_lines i r :
  source_block B i r = title_line B i r ++ content_line B r ++ NL ++ NL.
Proof.
  unfold source_block, title_line, content_line.
  now rewrite <- !app_assoc.
Qed.

Lemma format_template query context :
  format template query context
  = prompt_head ++ context ++ prompt_question ++ query ++ prompt_tail.
Proof. unfold format, template. cbn [map concat]. now rewrite app_nil_r. Qed.

Lemma content_line_nonblank r : blank (content_line B r) = false.
Proof. reflexivity. Qed.

Lemma title_line_head i r : exists rest, title_line B i r = 91%N :: rest.
Proof. unfold title_line. eexists. reflexivity. Qed.

Lemma blocks_snoc start front last :
  blocks B start (front ++ [last])
  = blocks B start front
    ++ title_line B (start + Z.of_nat (length front)) last
    ++ content_line B last ++ NL ++ NL.
Proof.
  unfold blocks. rewrite enumerate_app, map_app, concat_app.
  cbn [enumerate map concat fst snd].
  now rewrite app_nil_r, source_block_lines.
Qed.

Lemma blocks_head start r rs : exists rest, blocks B start (r :: rs) = 91%N :: rest.
Proof.
  unfold blocks. cbn [enumerate map concat fst snd]. rewrite source_block_lines.
  destruct (title_line_head start r) as [rest ->]. eexists. reflexivity.
Qed.

Lemma strip_blocks_snoc front last :
  strip (blocks B 1 (front ++ [last]))
  = blocks B 1 front
    ++ title_line B (1 + Z.of_nat (length front)) last
    ++ rstrip (content_line B last).
Proof.
  unfold strip.
  assert (Hl : lstrip (blocks B 1 (front ++ [last])) = blocks B 1 (front ++ [last])).
  { destruct front as [|r front]; simpl app.
    - destruct (blocks_head 1 last []) as [rest ->]. reflexivity.
    - destruct (blocks_head 1 r (front ++ [last])) as [rest ->]. reflexivity. }
  rewrite Hl, blocks_snoc.
  rewrite (app_assoc (blocks B 1 front)), (app_assoc _ (content_line B last)).
  rewrite rstrip_blank_suffix by reflexivity.
  rewrite rstrip_app_nonblank by apply content_line_nonblank.
  now rewrite <- app_assoc.
Qed.

Lemma prompt_snoc query front last :
  generate_rag_prompt B query (front ++ [last])
  = prompt_head
    ++ blocks B 1 front
    ++ title_line B (1 + Z.of_nat (length front)) last
    ++ rstrip (content_line B last)
    ++ prompt_question ++ query ++ prompt_tail.
Proof.
  unfold generate_rag_prompt.
  rewrite format_template, build_context_blocks, strip_blocks_snoc.
  now rewrite <- !app_assoc.
Qed.

Lemma lstrip_blocks rs : lstrip (blocks B 1 rs) = blocks B 1 rs.
Proof.
  destruct rs as [|r rs]; [reflexivity|].
  destruct (blocks_head 1 r rs) as [rest ->]. reflexivity.
Qed.

(** C5. The prompt is a function of the query and of the titles, tags
    and contents of the results in order, and of nothing else: the same
    query and the same list of results give the same text. It is the
    head of the template, then one labeled block per result in input
    order (title, tag, content), then the question and the fixed
    instructions. No length or budget cuts the context: the prompt holds
    the assembled context whole but for the white space at its very end
    ([strip]), so that every block but the last is there in full and the
    last one up to the white space that ends its content line. *)
Theorem prompt_is_template_over_stripped_context (query : pystr) :
  generate_rag_prompt B query []
    = prompt_head ++ prompt_question ++ query ++ prompt_tail
  /\ (forall front last,
        generate_rag_prompt B query (front ++ [last])
        = prompt_head
          ++ blocks B 1 front
          ++ title_line B (1 + Z.of_nat (length front)) last
          ++ rstrip (content_line B last)
          ++ prompt_question ++ query ++ prompt_tail)
  /\ (forall rs rs',
        map (fun r => (podcast_title r, podcast_tag r, content r)) rs
        = map (fun r => (podcast_title r, podcast_tag r, content r)) rs' ->
        generate_rag_prompt B query rs = generate_rag_prompt B query rs')
  /\ (forall rs, exists kept ws,
        blank ws = true
        /\ blocks B 1 rs = kept ++ ws
        /\ generate_rag_prompt B query rs
           = prompt_head ++ kept ++ prompt_question ++ query ++ prompt_tail).
Proof.
  split; [|split; [|split]].
  - unfold generate_rag_prompt. now rewrite format_template.
  - intros front last. apply prompt_snoc.
  - intros rs rs' H. unfold generate_rag_prompt. rewrite !build_context_blocks. do 2 f_equal.
    unfold blocks. generalize 1 as start. revert rs' H.
    induction rs as [|r rs IH]; intros [|r' rs'] H start; try discriminate;
      [reflexivity|].
    simpl in *. injection H as Ht Hg Hc Hrest.
    rewrite (IH rs' Hrest). f_equal.
    unfold source_block. now rewrite Ht, Hg, Hc.
  - intros rs. unfold generate_rag_prompt.
    rewrite format_template, build_context_blocks. unfold strip.
    rewrite lstrip_blocks.
    destruct (rstrip_split (blocks B 1 rs)) as [ws [Hws Hs]].
    exists (rstrip (blocks B 1 rs)), ws. auto.
Qed.

End PromptFacts.

(** * Further properties of the service *)

(** ** rag_service.py: search, step by step *)

Section SearchSteps.
Context {E : Type} (X : External E) (B : Builtins) (config : Config).

Lemma search_eq query limit self en :
  search_similar_content X B config query limit self en =
  match embedding_model self with
  | Some (SentenceTransformer_of name) =>
      search_with_model X B config name query (effective_limit config limit) self en
  | None =>
      match st_load X (EMBEDDING_MODEL config) (ext en) with
      | (Raise e, x0) =>
          search_failed e self
            {| ext := x0;
               trace := trace en
                        ++ [NewSentenceTransformer (EMBEDDING_MODEL config)] |}
      | (Ok _, x0) =>
          search_with_model X B config (EMBEDDING_MODEL config) query
            (effective_limit config limit) (with_model config self)
            {| ext := x0;
               trace := (trace en
                         ++ [NewSentenceTransformer (EMBEDDING_MODEL config)])
                        ++ [Log INFO (lit "Loaded embedding model: "
                                      ++ EMBEDDING_MODEL config)] |}
      end
  end.
Proof.
  unfold search_similar_content, _ensure_embedding_model, search_with_model,
    search_failed, with_model.
  fold (effective_limit config limit).
  generalize (effective_limit config limit) as lim. intros lim. unfold_monad.
  destruct (embedding_model self) as [[name]|].
  - destruct (st_encode X name query (ext en)) as [[vec|e] x1]; cbn;
      [|reflexivity].
    destruct (qdrant_client self); cbn; [|reflexivity].
    destruct (qdrant_search X (COLLECTION_NAME config) vec lim x1)
      as [[pts|e] x2]; reflexivity.
  - destruct (st_load X (EMBEDDING_MODEL config) (ext en)) as [[[]|e] x0]; cbn;
      [|reflexivity].
    destruct (st_encode X (EMBEDDING_MODEL config) query x0) as [[vec|e] x1]; cbn;
      [|reflexivity].
    destruct (qdrant_client self); cbn; [|reflexivity].
    destruct (qdrant_search X (COLLECTION_NAME config) vec lim x1)
      as [[pts|e] x2]; reflexivity.
Qed.

(** What a search with the model at hand does, case by case. *)
Lemma search_with_model_cases name query lim s en :
  let out := search_with_model X B config name query lim s en in
  snd (fst out) = s
  /\ exists new,
       trace (snd out) = trace en ++ new
       /\ List.filter is_construction new = []
       /\ match fst (fst out) with
          | Ok rs =>
              exists vec x1 pts x2,
                st_encode X name query (ext en) = (Ok vec, x1)
                /\ qdrant_search X (COLLECTION_NAME config) vec lim x1 = (Ok pts, x2)
                /\ rs = map (format_point B) pts
                /\ ext (snd out) = x2
                /\ List.filter is_search_step new
                   = [Encode query; QdrantSearch (COLLECTION_NAME config) vec lim]
          | Raise e =>
              ((exists x1, st_encode X name query (ext en) = (Raise e, x1))
               \/ (exists vec x x',
                     qdrant_search X (COLLECTION_NAME config) vec lim x
                       = (Raise e, x'))
               \/ (qdrant_client s = None
                   /\ e = none_has_no_attribute (lit "search")))
              /\ exists before,
                   new = before
                         ++ [Log ERROR (lit "Error searching similar content"
                                        ++ lit ": " ++ exn_str e)]
          end.
Proof.
  cbv zeta. unfold search_with_model, search_failed.
  destruct (st_encode X name query (ext en)) as [[vec|e] x1] eqn:He.
  - destruct (qdrant_client s) eqn:Hq.
    + destruct (qdrant_search X (COLLECTION_NAME config) vec lim x1)
        as [[pts|e] x2] eqn:Hs; cbn [fst snd trace ext].
      * split; [reflexivity|]. eexists [_; _; _]. split.
        { now rewrite <- !(@app_assoc event). }
        split; [reflexivity|].
        exists vec, x1, pts, x2. repeat split; try reflexivity; assumption.
      * split; [reflexivity|]. eexists [_; _; _]. split.
        { now rewrite <- !(@app_assoc event). }
        split; [reflexivity|]. split; [eauto 8|].
        eexists [_; _]. reflexivity.
    + cbn [fst snd trace ext]. split; [reflexivity|]. eexists [_; _]. split.
      { now rewrite <- !(@app_assoc event). }
      split; [reflexivity|]. split; [auto|]. eexists [_]. reflexivity.
  - cbn [fst snd trace ext]. split; [reflexivity|]. eexists [_; _]. split.
    { now rewrite <- !(@app_assoc event). }
    split; [reflexivity|]. split; [eauto|]. eexists [_]. reflexivity.
Qed.

End SearchSteps.

Section SearchMore.
Context {E : Type} (X : External E) (B : Builtins) (config : Config).

(** X1. A search that returns gives one entry per point of the store's
    answer, in the store's order, each with the id and the score of its
    point: nothing is filtered out, sorted again or rescored. *)
Theorem search_keeps_store_order query limit self en rs :
  fst (fst (search_similar_content X B config query limit self en)) = Ok rs ->
  exists points vector x x',
    qdrant_search X (COLLECTION_NAME config) vector (effective_limit config limit) x
      = (Ok points, x')
    /\ length rs = length points
    /\ map id rs = map sp_id points
    /\ map score rs = map sp_score points.
Proof.
  intros H. destruct (search_ok_inv X B config _ _ _ _ _ H)
    as (pts & vec & x & x' & Hq & ->).
  exists pts, vec, x, x'. split; [exact Hq|].
  rewrite length_map, !map_map. repeat split.
Qed.

(** X2. A search that returns has encoded the query once, exactly as
    it was given, and has queried the store once, on the configured
    collection and with the requested limit, or the configured default
    when none was given. *)
Theorem search_encodes_once_queries_once query limit self en rs :
  fst (fst (search_similar_content X B config query limit self en)) = Ok rs ->
  exists vector new,
    trace (snd (search_similar_content X B config query limit self en))
      = trace en ++ new
    /\ List.filter is_search_step new
       = [ Encode query;
           QdrantSearch (COLLECTION_NAME config) vector
             (effective_limit config limit) ].
Proof.
  rewrite search_eq. destruct (embedding_model self) as [[name]|].
  - intros H.
    destruct (search_with_model_cases X B config name query
                (effective_limit config limit) self en) as (_ & new & Ht & _ & Hr).
    rewrite H in Hr. destruct Hr as (vec & _ & _ & _ & _ & _ & _ & _ & Hf).
    eauto.
  - destruct (st_load X (EMBEDDING_MODEL config) (ext en)) as [[[]|e] x0];
      [|discriminate].
    intros H.
    match goal with
    | |- context [search_with_model _ _ _ ?n ?q ?l ?s ?en0] =>
        destruct (search_with_model_cases X B config n q l s en0)
          as (_ & new & Ht & _ & Hr)
    end.
    rewrite H in Hr. destruct Hr as (vec & _ & _ & _ & _ & _ & _ & _ & Hf).
    exists vec. eexists (_ :: _ :: new). rewrite Ht. cbn [trace].
    split; [now rewrite <- !(@app_assoc event)|exact Hf].
Qed.

(** X3. A search that fails raises the very exception that the model
    or the store raised (or the attribute error of a missing store
    client), and the last thing it does is to log it. *)
Theorem search_raises_the_outside_error query limit self en e :
  fst (fst (search_similar_content X B config query limit self en)) = Raise e ->
  ((exists x x', st_load X (EMBEDDING_MODEL config) x = (Raise e, x'))
   \/ (exists name x x', st_encode X name query x = (Raise e, x'))
   \/ (exists vector x x',
         qdrant_search X (COLLECTION_NAME config) vector
           (effective_limit config limit) x = (Raise e, x'))
   \/ (qdrant_client self = None /\ e = none_has_no_attribute (lit "search")))
  /\ exists before,
       trace (snd (search_similar_content X B config query limit self en))
       = trace en ++ before
         ++ [Log ERROR (lit "Error searching similar content" ++ lit ": "
                        ++ exn_str e)].
Proof.
  rewrite search_eq. destruct (embedding_model self) as [[name]|].
  - intros H.
    destruct (search_with_model_cases X B config name query
                (effective_limit config limit) self en) as (_ & new & Ht & _ & Hr).
    rewrite H in Hr. destruct Hr as ([He|[Hs|Hn]] & before & ->).
    + destruct He as [x1 He]. split; [eauto 8|]. eauto.
    + split; [auto|]. eauto.
    + split; [auto|]. eauto.
  - destruct (st_load X (EMBEDDING_MODEL config) (ext en)) as [[[]|e0] x0] eqn:Hl.
    + intros H.
      match goal with
      | |- context [search_with_model _ _ _ ?n ?q ?l ?s ?en0] =>
          destruct (search_with_model_cases X B config n q l s en0)
            as (_ & new & Ht & _ & Hr)
      end.
      rewrite H in Hr. destruct Hr as (Hwhy & before & ->). split.
      * destruct Hwhy as [[x1 He]|[Hs|[Hn He]]]; [eauto 8|auto|].
        right. right. right. split; [exact Hn|exact He].
      * exists (NewSentenceTransformer (EMBEDDING_MODEL config)
                :: Log INFO (lit "Loaded embedding model: " ++ EMBEDDING_MODEL config)
                :: before).
        rewrite Ht. cbn [trace]. now rewrite <- !(@app_assoc event).
    + unfold search_failed. cbn [fst snd trace]. intros H. injection H as <-.
      split; [eauto 8|].
      exists [NewSentenceTransformer (EMBEDDING_MODEL config)].
      now rewrite <- !(@app_assoc event).
Qed.

(** X4. With the embedding model already loaded, a search loads
    nothing and leaves the service object exactly as it was, whether it
    returns or raises. *)
Theorem search_reuses_loaded_model query limit self en model :
  embedding_model self = Some model ->
  let out := search_similar_content X B config query limit self en in
  snd (fst out) = self
  /\ exists new,
       trace (snd out) = trace en ++ new
       /\ List.filter is_construction new = [].
Proof.
  intros Hm. cbv zeta. rewrite search_eq, Hm. destruct model as [name].
  destruct (search_with_model_cases X B config name query
              (effective_limit config limit) self en) as (Hs & new & Ht & Hc & _).
  eauto.
Qed.

(** X5. The first search loads the embedding model. When the load
    succeeds the handle is kept in the service, also when the rest of
    that search fails, and it is the only construction; when the load
    fails the search raises that error and the service is unchanged, so
    that the next search tries again. *)
Theorem first_search_loads_model query limit self en :
  embedding_model self = None ->
  let out := search_similar_content X B config query limit self en in
  match st_load X (EMBEDDING_MODEL config) (ext en) with
  | (Ok _, _) =>
      snd (fst out) = with_model config self
      /\ exists new,
           trace (snd out)
           = trace en ++ NewSentenceTransformer (EMBEDDING_MODEL config) :: new
           /\ List.filter is_construction new = []
  | (Raise e, _) =>
      fst (fst out) = Raise e /\ snd (fst out) = self
  end.
Proof.
  intros Hm. cbv zeta. rewrite search_eq, Hm.
  destruct (st_load X (EMBEDDING_MODEL config) (ext en)) as [[[]|e] x0].
  - match goal with
    | |- context [search_with_model _ _ _ ?n ?q ?l ?s ?en0] =>
        destruct (search_with_model_cases X B config n q l s en0)
          as (Hs & new & Ht & Hc & _)
    end.
    split; [exact Hs|].
    exists (Log INFO (lit "Loaded embedding model: " ++ EMBEDDING_MODEL config)
            :: new).
    rewrite Ht. cbn [trace]. split; [now rewrite <- !(@app_assoc event)|exact Hc].
  - split; reflexivity.
Qed.

End SearchMore.

Lemma search_keeps_store_order_witness :
  exists points : list ScoredPoint,
    length (map (format_point Fake.builtins) Samples.points) = length points.
Proof.
  assert (Hrun : fst (fst (search_similar_content Fake.external Fake.builtins
                             Fake.config (lit "q") None Fake.service Samples.world))
                 = Ok (map (format_point Fake.builtins) Samples.points))
    by (vm_compute; reflexivity).
  destruct (search_keeps_store_order Fake.external Fake.builtins Fake.config
              _ _ _ _ _ Hrun) as (points & _ & _ & _ & _ & Hlen & _).
  exists points. exact Hlen.
Defined.

Lemma search_encodes_once_queries_once_witness :
  exists vector new,
    trace (snd (search_similar_content Fake.external Fake.builtins Fake.config
                  (lit " q ") (Some 1) Fake.service Samples.world))
      = trace Samples.world ++ new
    /\ List.filter is_search_step new
       = [ Encode (lit " q ");
           QdrantSearch (COLLECTION_NAME Fake.config) vector
             (effective_limit Fake.config (Some 1)) ].
Proof.
  apply (search_encodes_once_queries_once Fake.external Fake.builtins Fake.config
           (lit " q ") (Some 1) Fake.service Samples.world
           (map (format_point Fake.builtins) (firstn 1 Samples.points))).
  vm_compute. reflexivity.
Defined.

Lemma search_raises_the_outside_error_witness :
  exists before,
    trace (snd (search_similar_content (Outage.external true) Fake.builtins
                  Fake.config (lit "q") None Fake.service Samples.world))
    = trace Samples.world ++ before
      ++ [Log ERROR (lit "Error searching similar content" ++ lit ": "
                     ++ exn_str (VendorError (lit "connection refused")))].
Proof.
  apply (search_raises_the_outside_error (Outage.external true) Fake.builtins
           Fake.config (lit "q") None Fake.service Samples.world
           (VendorError (lit "connection refused"))).
  vm_compute. reflexivity.
Defined.

Lemma search_reuses_loaded_model_witness :
  snd (fst (search_similar_content Fake.external Fake.builtins Fake.config
              (lit "q") None Samples.loaded_service Samples.world))
  = Samples.loaded_service.
Proof.
  apply (search_reuses_loaded_model Fake.external Fake.builtins Fake.config
           (lit "q") None Samples.loaded_service Samples.world
           (SentenceTransformer_of (lit "paraphrase-multilingual-MiniLM-L12-v2"))).
  reflexivity.
Defined.

Lemma first_search_loads_model_witness :
  snd (fst (search_similar_content (Outage.external true) Fake.builtins
              Fake.config (lit "q") None Fake.service Samples.world))
  = with_model Fake.config Fake.service
  /\ snd (fst (search_similar_content (Outage.external false) Fake.builtins
                 Fake.config (lit "q") None Fake.service Samples.world))
     = Fake.service.
Proof.
  split.
  - exact (proj1 (first_search_loads_model (Outage.external true) Fake.builtins
                    Fake.config (lit "q") None Fake.service Samples.world
                    eq_refl)).
  - exact (proj2 (first_search_loads_model (Outage.external false) Fake.builtins
                    Fake.config (lit "q") None Fake.service Samples.world
                    eq_refl)).
Defined.

(** ** rag_service.py: answer generation *)

Section AnswerFacts.
Context {E : Type} (X : External E) (B : Builtins) (config : Config).

(** X6. Answer generation sends exactly one completion request, built
    from the assembled prompt with the configured model, 1000 tokens and
    temperature 0.7: through the SDK when a client is there or can be
    constructed, and otherwise by an HTTP post to the vendor's endpoint
    with the API key as bearer token. It keeps a client it has
    constructed, constructs none when one is there, and touches neither
    the store client nor the embedding model. *)
Theorem generate_answer_sends_one_request query search_results self en :
  let out := generate_answer X B config query search_results self en in
  let req := completion_request config
               (generate_rag_prompt B query search_results) in
  (exists new,
     trace (snd out) = trace en ++ new
     /\ List.filter is_llm_call new
        = [ if sdk_available X self en then SdkCompletion req
            else HttpPost completions_url (authorization B config) req ]
     /\ List.filter is_construction new
        = match llm_client self with Some _ => [] | None => [NewOpenAI] end)
  /\ llm_client (snd (fst out))
     = match llm_client self with
       | Some c => Some c
       | None => if sdk_available X self en then Some OpenAI_client else None
       end
  /\ qdrant_client (snd (fst out)) = qdrant_client self
  /\ embedding_model (snd (fst out)) = embedding_model self.
Proof.
  cbv zeta. unfold generate_answer, _ensure_llm_client, sdk_available, authorization.
  unfold_monad.
  set (req := completion_request config (generate_rag_prompt B query search_results)).
  destruct self as [qc em [c|]]; cbn [llm_client qdrant_client embedding_model].
  - destruct (sdk_completion X req (ext en)) as [[a|e] x1]; cbn.
    + split; [|auto]. eexists [_; _]. split; [now rewrite <- !(@app_assoc event)|].
      split; reflexivity.
    + split; [|auto]. eexists [_; _]. split; [now rewrite <- !(@app_assoc event)|].
      split; reflexivity.
  - destruct (openai_new X (ext en)) as [[[]|e0] x0]; cbn.
    + destruct (sdk_completion X req x0) as [[a|e] x1]; cbn.
      * split; [|auto]. eexists [_; _; _; _].
        split; [now rewrite <- !(@app_assoc event)|]. split; reflexivity.
      * split; [|auto]. eexists [_; _; _; _].
        split; [now rewrite <- !(@app_assoc event)|]. split; reflexivity.
    + destruct (http_post X completions_url _ req x0) as [[a|e] x1]; cbn.
      * split; [|auto]. eexists [_; _; _; _].
        split; [now rewrite <- !(@app_assoc event)|]. split; reflexivity.
      * split; [|auto]. eexists [_; _; _; _].
        split; [now rewrite <- !(@app_assoc event)|]. split; reflexivity.
Qed.

(** X7. Answer generation returns the text that the vendor returned
    and raises the exception that the vendor raised, unchanged, and
    leaves the outside as the vendor call left it. *)
Theorem generate_answer_passes_the_vendor_outcome query search_results self en :
  let out := generate_answer X B config query search_results self en in
  let req := completion_request config
               (generate_rag_prompt B query search_results) in
  let vendor :=
    if sdk_available X self en
    then sdk_completion X req (after_client_step X self en)
    else http_post X completions_url (authorization B config) req
           (after_client_step X self en) in
  fst (fst out) = fst vendor /\ ext (snd out) = snd vendor.
Proof.
  cbv zeta. unfold generate_answer, _ensure_llm_client, sdk_available, authorization,
    after_client_step.
  unfold_monad.
  set (req := completion_request config (generate_rag_prompt B query search_results)).
  destruct self as [qc em [c|]]; cbn [llm_client qdrant_client embedding_model].
  - destruct (sdk_completion X req (ext en)) as [[a|e] x1]; cbn; auto.
  - destruct (openai_new X (ext en)) as [[[]|e0] x0]; cbn.
    + destruct (sdk_completion X req x0) as [[a|e] x1]; cbn; auto.
    + destruct (http_post X completions_url _ req x0) as [[a|e] x1]; cbn; auto.
Qed.

End AnswerFacts.

(** ** rag_service.py: the chat pipeline, further *)

Section ChatMore.
Context {E : Type} (X : External E) (B : Builtins) (config : Config).

Lemma search_state query limit self en :
  let s' := snd (fst (search_similar_content X B config query limit self en)) in
  s' = self \/ (embedding_model self = None /\ s' = with_model config self).
Proof.
  cbv zeta. rewrite search_eq. destruct (embedding_model self) as [[name]|] eqn:Hm.
  - left. apply search_with_model_cases.
  - destruct (st_load X (EMBEDDING_MODEL config) (ext en)) as [[[]|e] x0].
    + right. split; [reflexivity|]. apply search_with_model_cases.
    + left. reflexivity.
Qed.

Lemma generate_answer_state query search_results self en :
  let s' := snd (fst (generate_answer X B config query search_results self en)) in
  qdrant_client s' = qdrant_client self
  /\ embedding_model s' = embedding_model self
  /\ (forall c, llm_client self = Some c -> llm_client s' = Some c).
Proof.
  cbv zeta. unfold generate_answer, _ensure_llm_client. unfold_monad.
  set (req := completion_request config (generate_rag_prompt B query search_results)).
  destruct self as [qc em [c|]]; cbn [llm_client qdrant_client embedding_model].
  - destruct (sdk_completion X req (ext en)) as [[a|e] x1]; cbn; auto.
  - destruct (openai_new X (ext en)) as [[[]|e0] x0]; cbn.
    + destruct (sdk_completion X req x0) as [[a|e] x1]; cbn;
        repeat split; intros; discriminate.
    + destruct (http_post X completions_url _ req x0) as [[a|e] x1]; cbn;
        repeat split; intros; discriminate.
Qed.

(** X8. Whatever happens in [chat], the handles of the service are
    never reset: the store client is the same afterwards, and an
    embedding model or an LLM client that was there is still there. *)
Theorem chat_never_resets_a_handle query limit self en :
  let s' := snd (fst (chat X B config query limit self en)) in
  qdrant_client s' = qdrant_client self
  /\ (forall m, embedding_model self = Some m -> embedding_model s' = Some m)
  /\ (forall c, llm_client self = Some c -> llm_client s' = Some c).
Proof.
  cbv zeta. rewrite chat_eq. unfold chat_failed.
  pose proof (search_state query limit self en) as Hs. cbv zeta in Hs.
  destruct (search_similar_content X B config query limit self en)
    as [[[rs|e] s1] en1]; cbn [fst snd] in *.
  - assert (H1 : qdrant_client s1 = qdrant_client self
                 /\ (forall m, embedding_model self = Some m ->
                               embedding_model s1 = Some m)
                 /\ llm_client s1 = llm_client self).
    { destruct Hs as [->|[Hn ->]]; [auto|].
      cbn. repeat split. intros m Hm. congruence. }
    destruct H1 as (Hq & Hm & Hl).
    destruct rs as [|r rs]; [cbn; repeat split; auto; congruence|].
    pose proof (generate_answer_state query (r :: rs) s1 en1) as Hg.
    cbv zeta in Hg.
    destruct (generate_answer X B config query (r :: rs) s1 en1)
      as [[[ans|e] s2] en2]; cbn [fst snd] in *.
    + destruct Hg as (Gq & Gm & Gl).
      destruct (format_sources B (r :: rs)); cbn [fst snd];
        (split; [congruence|]; split;
         [intros m H; rewrite Gm; auto | intros c H; apply Gl; congruence]).
    + destruct Hg as (Gq & Gm & Gl). split; [congruence|]. split.
      * intros m H. rewrite Gm. auto.
      * intros c H. apply Gl. congruence.
  - destruct Hs as [->|[Hn ->]]; cbn; repeat split; auto; congruence.
Qed.

Lemma format_sources_each rs srcs :
  format_sources B rs = Ok srcs ->
  Forall2 (fun r src => format_source B r = Ok src) rs srcs.
Proof.
  revert srcs. induction rs as [|r rs IH]; intros srcs; simpl.
  - intros H. injection H as <-. constructor.
  - destruct (format_source B r) as [s|e] eqn:Hr; [|discriminate].
    destruct (format_sources B rs) as [ss|e]; [|discriminate].
    intros H. injection H as <-. constructor; auto.
Qed.

Lemma format_source_fields r src :
  format_source B r = Ok src ->
  src_title src = podcast_title r
  /\ src_tag src = podcast_tag r
  /\ src_score src = round_ndigits B (score r) 3
  /\ content_preview (content r) = Ok (src_content_preview src).
Proof.
  unfold format_source. destruct (content_preview (content r)); [|discriminate].
  intros H. injection H as <-. auto.
Qed.

(** X9. An answer of [chat] repeats the query as it was given, and
    its sources are the results of the search, one by one and in order:
    title and tag as found, the score rounded to three digits, the
    content as its preview. *)
Theorem chat_answer_mirrors_the_results q limit self en response :
  fst (fst (chat X B config q limit self en)) = Ok response ->
  query response = q
  /\ exists rs,
       fst (fst (search_similar_content X B config q limit self en)) = Ok rs
       /\ Forall2 (fun r src =>
            src_title src = podcast_title r
            /\ src_tag src = podcast_tag r
            /\ src_score src = round_ndigits B (score r) 3
            /\ content_preview (content r) = Ok (src_content_preview src))
            rs (sources response).
Proof.
  rewrite chat_eq. unfold chat_failed.
  destruct (search_similar_content X B config q limit self en)
    as [[[rs|e] s1] en1]; cbn [fst snd]; [|discriminate].
  destruct rs as [|r rs].
  - cbn. intros H. injection H as <-. split; [reflexivity|].
    exists []. split; [reflexivity|constructor].
  - destruct (generate_answer X B config q (r :: rs) s1 en1)
      as [[[ans|e] s2] en2]; cbn [fst snd]; [|discriminate].
    destruct (format_sources B (r :: rs)) as [srcs|e] eqn:Hf; cbn [fst snd];
      [|discriminate].
    intros H. injection H as <-. split; [reflexivity|].
    exists (r :: rs). split; [reflexivity|]. cbn [sources].
    apply format_sources_each in Hf.
    eapply Forall2_impl; [exact Hf|]. intros r0 src0. apply format_source_fields.
Qed.

Lemma format_sources_previewable rs :
  (exists srcs, format_sources B rs = Ok srcs)
  <-> forallb (fun r => previewable (content r)) rs = true.
Proof.
  induction rs as [|r rs IH]; simpl.
  - split; eauto.
  - unfold format_source, content_preview, previewable.
    destruct (content r) as [| | | |s|l|d]; simpl;
      try (split; [intros [? H]; discriminate H|discriminate]).
    + destruct (format_sources B rs) as [ss|e].
      * split; eauto. intros _. apply IH. eauto.
      * split; [intros [? H]; discriminate H|].
        intros H. apply IH in H. destruct H as [? H]. discriminate H.
    + destruct (200 <? len l); simpl;
        [split; [intros [? H]; discriminate H|discriminate]|].
      destruct (format_sources B rs) as [ss|e].
      * split; eauto. intros _. apply IH. eauto.
      * split; [intros [? H]; discriminate H|].
        intros H. apply IH in H. destruct H as [? H]. discriminate H.
    + destruct (200 <? Z.of_nat (size d)); simpl;
        [split; [intros [? H]; discriminate H|discriminate]|].
      destruct (format_sources B rs) as [ss|e].
      * split; eauto. intros _. apply IH. eauto.
      * split; [intros [? H]; discriminate H|].
        intros H. apply IH in H. destruct H as [? H]. discriminate H.
Qed.

Lemma format_sources_raises_type_error rs e :
  format_sources B rs = Raise e -> exists msg, e = TypeError msg.
Proof.
  induction rs as [|r rs IH]; simpl; [discriminate|].
  unfold format_source, content_preview.
  destruct (content r) as [| | | |s|l|d]; simpl;
    try (intros H; injection H as <-; eauto).
  - destruct (format_sources B rs); [discriminate|].
    intros H. injection H as <-. auto.
  - destruct (200 <? len l); simpl; [intros H; injection H as <-; eauto|].
    destruct (format_sources B rs); [discriminate|].
    intros H. injection H as <-. auto.
  - destruct (200 <? Z.of_nat (size d)); simpl; [intros H; injection H as <-; eauto|].
    destruct (format_sources B rs); [discriminate|].
    intros H. injection H as <-. auto.
Qed.

(** X10. When one of the results of the search has a content that is
    neither a string nor a list or dictionary of at most 200 entries
    (a payload with [null] for its content, a number), [chat] returns no
    answer: it raises, and after an answer was obtained from the vendor
    the exception is a [TypeError]. *)
Theorem chat_fails_on_unpreviewable_content q limit self en rs :
  let found := search_similar_content X B config q limit self en in
  fst (fst found) = Ok rs ->
  forallb (fun r => previewable (content r)) rs = false ->
  exists e,
    fst (fst (chat X B config q limit self en)) = Raise e
    /\ (forall ans,
          fst (fst (generate_answer X B config q rs (snd (fst found)) (snd found)))
            = Ok ans ->
          exists msg, e = TypeError msg).
Proof.
  cbv zeta. rewrite chat_eq. unfold chat_failed.
  destruct (search_similar_content X B config q limit self en)
    as [[[rs'|e] s1] en1]; cbn [fst snd]; [|discriminate].
  intros H Hp. injection H as ->. destruct rs as [|r rs]; [discriminate Hp|].
  destruct (generate_answer X B config q (r :: rs) s1 en1)
    as [[[ans|e] s2] en2]; cbn [fst snd].
  - destruct (format_sources B (r :: rs)) as [srcs|e] eqn:Hf; cbn [fst snd].
    + assert (Hok : forallb (fun r => previewable (content r)) (r :: rs) = true)
        by (apply format_sources_previewable; eauto).
      congruence.
    + exists e. split; [reflexivity|]. intros _ _.
      eapply format_sources_raises_type_error; eauto.
  - exists e. split; [reflexivity|]. discriminate.
Qed.

End ChatMore.

Lemma chat_answer_mirrors_the_results_witness :
  exists response,
    fst (fst (chat Fake.external Fake.builtins Fake.config (lit " q ") None
                Fake.service Samples.world)) = Ok response
    /\ query response = lit " q "
    /\ length (sources response) = 2%nat.
Proof.
  assert (Hrun : { response |
            fst (fst (chat Fake.external Fake.builtins Fake.config (lit " q ") None
                        Fake.service Samples.world)) = Ok response })
    by (eexists; vm_compute; reflexivity).
  destruct Hrun as [response Hrun]. exists response. split; [exact Hrun|].
  destruct (chat_answer_mirrors_the_results Fake.external Fake.builtins Fake.config
              _ _ _ _ _ Hrun) as (Hq & rs & Hs & HF).
  split; [exact Hq|].
  apply Forall2_length in HF. rewrite <- HF.
  assert (Hrs : fst (fst (search_similar_content Fake.external Fake.builtins
                            Fake.config (lit " q ") None Fake.service Samples.world))
                = Ok (map (format_point Fake.builtins) Samples.points))
    by (vm_compute; reflexivity).
  rewrite Hrs in Hs. injection Hs as <-. reflexivity.
Defined.

Lemma chat_fails_on_unpreviewable_content_witness :
  exists e,
    fst (fst (chat Fake.external Fake.builtins Fake.config (lit "q") None
                Fake.service
                (Fake.env_of (Fake.store_with [Samples.null_content_point]))))
    = Raise e.
Proof.
  destruct (chat_fails_on_unpreviewable_content Fake.external Fake.builtins
              Fake.config (lit "q") None Fake.service
              (Fake.env_of (Fake.store_with [Samples.null_content_point]))
              (map (format_point Fake.builtins) [Samples.null_content_point]))
    as (e & He & _).
  - vm_compute. reflexivity.
  - vm_compute. reflexivity.
  - exists e. exact He.
Defined.

(** ** main.py: the routes, further *)

Section ApiMore.
Context {E : Type} (X : External E) (B : Builtins) (config : Config).

(** X11. With a service object, the health route answers 200 in every
    case and leaves the service as it was; an unreachable store shows
    only in the body, as an unhealthy status with the text of the error,
    while a reachable one is reported with its collections and with
    whether the configured collection is among them. *)
Theorem health_route_answers_200 (self : RAGService) (en : env E) :
  let out := health_check_endpoint X config (Some self) en in
  status_of out = 200
  /\ snd (fst out) = Some self
  /\ exists report,
       fst (fst out) = Ok report
       /\ match qdrant_client self with
          | None =>
              hs_status report = lit "unhealthy"
              /\ hs_qdrant report
                 = QdrantUnhealthy
                     (exn_str (none_has_no_attribute (lit "get_collections")))
          | Some _ =>
              match fst (qdrant_get_collections X (ext en)) with
              | Ok names =>
                  hs_status report = lit "healthy"
                  /\ hs_qdrant report
                     = QdrantHealthy names
                         (bool_decide (COLLECTION_NAME config ∈ names))
              | Raise e =>
                  hs_status report = lit "unhealthy"
                  /\ hs_qdrant report = QdrantUnhealthy (exn_str e)
              end
          end.
Proof.
  cbv zeta. unfold status_of, health_check_endpoint, on_service, health_check.
  unfold_monad.
  destruct self as [[qc|] em lc]; cbn [qdrant_client embedding_model llm_client].
  - destruct (qdrant_get_collections X (ext en)) as [[names|e] x1]; cbn;
      repeat split; eexists; split; try reflexivity; split; reflexivity.
  - cbn. repeat split. eexists. split; [reflexivity|]. split; reflexivity.
Qed.

(** X12. A query of white space only stops at the route: the service
    object and the outside are as before, and the only thing done is one
    error line in the log, so that no model is loaded and no store is
    queried for it. *)
Theorem blank_query_reaches_nothing (self : RAGService) (en : env E)
    (q : pystr) (limit : option Z) :
  blank q = true ->
  let logged_as (route : pystr) :=
    {| ext := ext en;
       trace := trace en ++ [Log ERROR (route ++ lit "400: Query cannot be empty")] |} in
  (snd (fst (chat_endpoint X B config {| req_query := q; req_limit := limit |}
               (Some self) en)) = Some self
   /\ snd (chat_endpoint X B config {| req_query := q; req_limit := limit |}
             (Some self) en) = logged_as (lit "Chat request failed: "))
  /\ (snd (fst (search_endpoint X B config q limit (Some self) en)) = Some self
      /\ snd (search_endpoint X B config q limit (Some self) en)
         = logged_as (lit "Search request failed: ")).
Proof.
  intros Hb. cbv zeta. unfold chat_endpoint, search_endpoint. unfold_monad.
  cbn [req_query]. rewrite falsy_strip, Hb. repeat split.
Qed.

(** X13. For a query that is not blank and a service object that is
    there, the chat route returns what [chat] returns with status 200,
    and turns whatever [chat] raises into status 500 with the text of the
    exception as detail; the search route does the same around the
    search, echoing the query beside the results. Both keep the service
    as the method left it. *)
Theorem routes_relay_the_service (self : RAGService) (en : env E)
    (q : pystr) (limit : option Z) :
  blank q = false ->
  let inner := chat X B config q limit self en in
  let out := chat_endpoint X B config {| req_query := q; req_limit := limit |}
               (Some self) en in
  let inner' := search_similar_content X B config q limit self en in
  let out' := search_endpoint X B config q limit (Some self) en in
  (fst (fst out)
   = match fst (fst inner) with
     | Ok r => Ok r
     | Raise e => Raise (HTTPException 500 (exn_str e))
     end
   /\ snd (fst out) = Some (snd (fst inner)))
  /\ (fst (fst out')
      = match fst (fst inner') with
        | Ok rs => Ok {| results := rs; sr_query := q |}
        | Raise e => Raise (HTTPException 500 (exn_str e))
        end
      /\ snd (fst out') = Some (snd (fst inner'))).
Proof.
  intros Hb. cbv zeta. unfold chat_endpoint, search_endpoint, on_service.
  unfold_monad. cbn [req_query req_limit]. rewrite falsy_strip, Hb.
  split.
  - destruct (chat X B config q limit self en) as [[[r|e] s1] en1]; cbn; auto.
  - destruct (search_similar_content X B config q limit self en)
      as [[[rs|e] s1] en1]; cbn; auto.
Qed.

(** X14. Start-up never raises. Whatever the configuration (a missing
    API key is only logged) and whatever the global held before, the
    service object is there afterwards exactly when the store client
    could be constructed, and it then has no embedding model and no LLM
    client yet. *)
Theorem startup_outcome (g : option RAGService) (en : env E) :
  let out := startup_event X config g en in
  fst (fst out) = Ok tt
  /\ snd (fst out)
     = match fst (qdrant_connect X (QDRANT_HOST config) (QDRANT_PORT config)
                    (ext en)) with
       | Ok _ =>
           Some {| qdrant_client :=
                     Some (QdrantClient_at (QDRANT_HOST config) (QDRANT_PORT config));
                   embedding_model := None;
                   llm_client := None |}
       | Raise _ => None
       end
  /\ exists new,
       trace (snd out) = trace en ++ new
       /\ head new
          = match validate config with
            | Ok _ => Some (NewQdrantClient (QDRANT_HOST config) (QDRANT_PORT config))
            | Raise e =>
                Some (Log ERROR (lit "Config validation failed: " ++ exn_str e))
            end.
Proof.
  cbv zeta. unfold startup_event, new_RAGService, run_on, __init__,
    _initialize_clients.
  unfold_monad.
  destruct (validate config) as [b|e0]; cbn;
    destruct (qdrant_connect X (QDRANT_HOST config) (QDRANT_PORT config) (ext en))
      as [[[]|e] x1]; cbn;
    (split; [reflexivity|]; split; [reflexivity|]);
    eexists (_ :: _); (split; [rewrite <- ?(@app_assoc event); reflexivity|]);
    reflexivity.
Qed.

End ApiMore.

Lemma blank_query_reaches_nothing_witness :
  snd (fst (search_endpoint Fake.external Fake.builtins Fake.config
              (lit "  ") None (Some Fake.service) Samples.world))
  = Some Fake.service
  /\ ext (snd (search_endpoint Fake.external Fake.builtins Fake.config
                 (lit "  ") None (Some Fake.service) Samples.world))
     = ext Samples.world.
Proof.
  destruct (blank_query_reaches_nothing Fake.external Fake.builtins Fake.config
              Fake.service Samples.world (lit "  ") None eq_refl)
    as (_ & Hs & He).
  split; [exact Hs|]. now rewrite He.
Defined.

Lemma routes_relay_the_service_witness :
  status_of (search_endpoint (Outage.external true) Fake.builtins Fake.config
               (lit "q") None (Some Fake.service) Samples.world) = 500
  /\ status_of (search_endpoint Fake.external Fake.builtins Fake.config
                  (lit "q") None (Some Fake.service) Samples.world) = 200.
Proof.
  split.
  - destruct (routes_relay_the_service (Outage.external true) Fake.builtins
                Fake.config Fake.service Samples.world (lit "q") None eq_refl)
      as (_ & Hr & _).
    unfold status_of. rewrite Hr. vm_compute. reflexivity.
  - destruct (routes_relay_the_service Fake.external Fake.builtins
                Fake.config Fake.service Samples.world (lit "q") None eq_refl)
      as (_ & Hr & _).
    unfold status_of. rewrite Hr. vm_compute. reflexivity.
Defined.

(** ** ingest_qdrant.py, further *)

Section IngestMore.
Context {E : Type} (X : External E).

(** X15. [ensure_collection] raises exactly what the store raised,
    and stops there: when the listing fails nothing else is called, and
    when the creation fails the payload index is not attempted. When
    neither fails it returns normally. *)
Theorem ensure_collection_relays_store_errors {S} (name : pystr) (size : Z)
    (s : S) (en : env E) :
  let out := ensure_collection X name size s en in
  match qdrant_get_collections X (ext en) with
  | (Raise e, x1) =>
      out = (Raise e, s, {| ext := x1; trace := trace en ++ [GetCollections] |})
  | (Ok names, x1) =>
      if bool_decide (name ∈ names) then fst (fst out) = Ok tt
      else
        match qdrant_create_collection X name size COSINE x1 with
        | (Raise e, x2) =>
            out = (Raise e, s,
                   {| ext := x2;
                      trace := trace en ++
                        [ GetCollections;
                          Print (lit "Creating collection '" ++ name
                                 ++ lit "' with size=" ++ str_of_int size
                                 ++ lit " and COSINE distance...");
                          CreateCollection name size COSINE ] |})
        | (Ok _, _) => fst (fst out) = Ok tt
        end
  end.
Proof.
  cbv zeta. unfold ensure_collection. unfold_monad.
  destruct (qdrant_get_collections X (ext en)) as [[names|e] x1]; cbn;
    [|reflexivity].
  destruct (bool_decide (name ∈ names)); cbn; [reflexivity|].
  destruct (qdrant_create_collection X name size COSINE x1) as [[[]|e] x2]; cbn.
  - destruct (qdrant_create_payload_index X name (lit "podcast_tag") KEYWORD x2)
      as [[[]|e] x3]; reflexivity.
  - now rewrite <- !(@app_assoc event).
Qed.

End IngestMore.

Section UpsertFacts.
Context {E : Type} (IX : IngestExternal E).

Lemma upsert_each_app a b name journal en :
  upsert_each IX (a ++ b) name journal en
  = match upsert_each IX a name journal en with
    | (Ok _, j1, en1) => upsert_each IX b name j1 en1
    | (Raise e, j1, en1) => (Raise e, j1, en1)
    end.
Proof.
  revert journal en. induction a as [|c a IH]; intros journal en.
  - reflexivity.
  - cbn [app upsert_each]. unfold bind, journal_call.
    destruct (model_encode IX _ (ext en)) as [[v|e] x1]; [|reflexivity].
    cbn [ext].
    destruct (client_upsert IX name _ x1) as [[[]|e] x2]; [|reflexivity].
    apply IH.
Qed.

Lemma upsert_chunks_eq chunks name journal en :
  upsert_chunks IX chunks name journal en
  = upsert_each IX chunks name journal
      {| ext := ext en;
         trace := trace en
                  ++ [Print (lit "Encoding and upserting chunks into Qdrant...")] |}.
Proof. reflexivity. Qed.

(** X16. Chunks are ingested in order and the job stops at the first
    chunk whose encoding or upsert raises: once a list of chunks fails,
    the chunks that follow it make no difference, neither to the error
    nor to what was encoded and upserted. *)
Theorem upsert_stops_at_first_failure chunks name journal en e :
  fst (fst (upsert_chunks IX chunks name journal en)) = Raise e ->
  forall more,
    upsert_chunks IX (chunks ++ more) name journal en
    = upsert_chunks IX chunks name journal en.
Proof.
  intros H more. rewrite !upsert_chunks_eq in *. rewrite upsert_each_app.
  destruct (upsert_each IX chunks name journal _) as [[[[]|e'] j1] en1];
    [discriminate H|reflexivity].
Qed.

Lemma chunk_payload_lookup chunk k :
  chunk_payload chunk !! k
  = if bool_decide (k ∈ [lit "podcast_title"; lit "podcast_tag"; lit "content"])
    then Some (dict_get chunk k (VStr []))
    else None.
Proof.
  unfold chunk_payload.
  destruct (decide (k = lit "podcast_title")) as [->|H1].
  { rewrite lookup_insert_eq. reflexivity. }
  rewrite lookup_insert_ne by congruence.
  destruct (decide (k = lit "podcast_tag")) as [->|H2].
  { rewrite lookup_insert_eq. reflexivity. }
  rewrite lookup_insert_ne by congruence.
  destruct (decide (k = lit "content")) as [->|H3].
  { rewrite lookup_insert_eq. reflexivity. }
  rewrite lookup_insert_ne by congruence.
  rewrite lookup_empty. rewrite bool_decide_eq_false_2; [reflexivity|].
  intros Hin. repeat (apply elem_of_cons in Hin; destruct Hin as [?|Hin]; [congruence|]).
  now apply not_elem_of_nil in Hin.
Qed.

Lemma upsert_each_journal chunks name journal en :
  fst (fst (upsert_each IX chunks name journal en)) = Ok tt ->
  exists vectors,
    ingested IX name (ext en) chunks vectors
      (ext (snd (upsert_each IX chunks name journal en)))
    /\ snd (fst (upsert_each IX chunks name journal en))
       = journal ++ concat (map (chunk_calls name) (combine chunks vectors))
    /\ trace (snd (upsert_each IX chunks name journal en)) = trace en.
Proof.
  revert journal en. induction chunks as [|c chunks IH]; intros journal en.
  - intros _. exists []. cbn. split; [constructor|]. now rewrite app_nil_r.
  - cbn [upsert_each]. unfold bind, journal_call.
    destruct (model_encode IX _ (ext en)) as [[v|e] x1] eqn:He; [|discriminate].
    cbn [ext].
    destruct (client_upsert IX name _ x1) as [[[]|e] x2] eqn:Hu; [|discriminate].
    intros H. destruct (IH _ _ H) as (vs & Hrun & Hj & Ht).
    exists (v :: vs). split; [econstructor; eauto|].
    rewrite Hj, Ht. split; [|reflexivity].
    cbn [combine map concat]. unfold chunk_calls at 2. cbn [fst snd].
    now rewrite <- !app_assoc.
Qed.

Lemma ingested_length name x chunks vectors x' :
  ingested IX name x chunks vectors x' -> length vectors = length chunks.
Proof. induction 1; cbn; congruence. Qed.

(** X17. An ingestion that returns has, for every chunk and in the
    order of the chunks, encoded the content of the chunk (the empty
    string when the chunk has none) and then upserted one point into the
    given collection, every one of these calls having returned: the
    vector of the point is the one that the encoder returned for that
    chunk, its id is the id of the chunk, and its payload has exactly the
    title, the tag and the content of the chunk (the empty string for a
    missing one), every other key of the chunk being left out. The
    outside is left as the last upsert left it. *)
Theorem upsert_chunks_sends_one_point_per_chunk chunks name journal en :
  let out := upsert_chunks IX chunks name journal en in
  fst (fst out) = Ok tt ->
  exists vectors,
    ingested IX name (ext en) chunks vectors (ext (snd out))
    /\ length vectors = length chunks
    /\ snd (fst out)
       = journal ++ concat (map (chunk_calls name) (combine chunks vectors))
    /\ upserted (concat (map (chunk_calls name) (combine chunks vectors)))
       = map (fun cv => chunk_point (fst cv) (snd cv)) (combine chunks vectors)
    /\ (forall chunk vector,
          pt_vector (chunk_point chunk vector) = vector
          /\ (forall i, chunk !! lit "id" = Some i ->
                        pt_id (chunk_point chunk vector) = i)
          /\ (forall k,
                pt_payload (chunk_point chunk vector) !! k
                = if bool_decide
                       (k ∈ [lit "podcast_title"; lit "podcast_tag"; lit "content"])
                  then Some (dict_get chunk k (VStr []))
                  else None)).
Proof.
  cbv zeta. rewrite !upsert_chunks_eq.
  intros H. destruct (upsert_each_journal _ _ _ _ H) as (vs & Hrun & Hj & _).
  exists vs. split; [exact Hrun|].
  split; [exact (ingested_length _ _ _ _ _ Hrun)|]. split; [exact Hj|]. split.
  - clear. induction (combine chunks vs) as [|cv l IH]; [reflexivity|].
    cbn [map concat]. unfold upserted in *.
    rewrite map_app, concat_app, IH. reflexivity.
  - intros chunk vector. split; [reflexivity|]. split.
    + intros i Hi. cbn [chunk_point pt_id]. now apply dict_get_some.
    + intros k. apply chunk_payload_lookup.
Qed.

End UpsertFacts.

Lemma upsert_stops_at_first_failure_witness :
  upsert_chunks FakeIngest.external
    ([FakeIngest.chunk 1 (lit "a"); FakeIngest.chunk_without_id (lit "b")]
     ++ [FakeIngest.chunk 3 (lit "c")])
    (lit "podcast_chunks") [] FakeIngest.start
  = upsert_chunks FakeIngest.external
      [FakeIngest.chunk 1 (lit "a"); FakeIngest.chunk_without_id (lit "b")]
      (lit "podcast_chunks") [] FakeIngest.start.
Proof.
  apply (upsert_stops_at_first_failure FakeIngest.external
           [FakeIngest.chunk 1 (lit "a"); FakeIngest.chunk_without_id (lit "b")]
           (lit "podcast_chunks") [] FakeIngest.start
           (VendorError (lit "invalid point id"))).
  vm_compute. reflexivity.
Defined.

Lemma upsert_chunks_sends_one_point_per_chunk_witness :
  map pt_vector
    (upserted (snd (fst (upsert_chunks FakeIngest.encoding_external
                           [FakeIngest.chunk 1 (lit "a"); FakeIngest.chunk 2 []]
                           (lit "podcast_chunks") [] FakeIngest.start))))
  = [[1%float]; [0%float]].
Proof.
  destruct (upsert_chunks_sends_one_point_per_chunk FakeIngest.encoding_external
              [FakeIngest.chunk 1 (lit "a"); FakeIngest.chunk 2 []]
              (lit "podcast_chunks") [] FakeIngest.start)
    as (vs & Hrun & _ & Hj & Hu & _).
  - vm_compute. reflexivity.
  - rewrite Hj. cbn [app]. rewrite Hu.
    inversion Hrun as [|x0 c0 v0 x1 x2 cs0 vs0 x3 He0 _ Hrest]; subst.
    inversion Hrest as [|y0 c1 v1 y1 y2 cs1 vs1 y3 He1 _ Hnil]; subst.
    inversion Hnil; subst.
    vm_compute in He0. injection He0 as <- _.
    vm_compute in He1. injection He1 as <- _.
    reflexivity.
Defined.

(** ** Ingestion and search together *)

Section RoundTrip.
Context {E : Type} (X : External E) (B : Builtins) (config : Config).


Lemma generate_answer_with_client query search_results self en c :
  llm_client self = Some c ->
  snd (fst (generate_answer X B config query search_results self en)) = self
  /\ exists new,
       trace (snd (generate_answer X B config query search_results self en))
         = trace en ++ new
       /\ List.filter is_construction new = [].
Proof.
  intros Hc. unfold generate_answer, _ensure_llm_client. unfold_monad.
  set (req := completion_request config (generate_rag_prompt B query search_results)).
  rewrite Hc. cbn. rewrite Hc.
  destruct (sdk_completion X req (ext en)) as [[a|e] x1]; cbn;
    (split; [reflexivity|]); eexists [_; _];
    (split; [now rewrite <- !(@app_assoc event)|reflexivity]).
Qed.

(** X19. Once both handles are there, a chat request constructs
    nothing: it issues no constructor call and leaves the service object
    as it was, whether it answers or raises. *)
Theorem chat_constructs_nothing_once_warm query limit self en model c :
  embedding_model self = Some model ->
  llm_client self = Some c ->
  snd (fst (chat X B config query limit self en)) = self
  /\ exists new,
       trace (snd (chat X B config query limit self en)) = trace en ++ new
       /\ List.filter is_construction new = [].
Proof.
  intros Hm Hc. rewrite chat_eq. unfold chat_failed.
  rewrite search_eq, Hm. destruct model as [name].
  destruct (search_with_model_cases X B config name query
              (effective_limit config limit) self en) as (Hs & n1 & Ht & Hn & _).
  destruct (search_with_model X B config name query (effective_limit config limit)
              self en) as [[[rs|e] s1] en1]; cbn [fst snd] in *; subst s1.
  - destruct rs as [|r rs]; [cbn; eauto|].
    destruct (generate_answer_with_client query (r :: rs) self en1 c Hc)
      as (Hg & n2 & Ht2 & Hn2).
    destruct (generate_answer X B config query (r :: rs) self en1)
      as [[[ans|e] s2] en2]; cbn [fst snd] in *; subst s2.
    + destruct (format_sources B (r :: rs)); cbn [fst snd trace].
      * split; [reflexivity|]. exists (n1 ++ n2). rewrite Ht2, Ht.
        split; [now rewrite <- !(@app_assoc event)|].
        now rewrite List.filter_app, Hn, Hn2.
      * split; [reflexivity|]. eexists (n1 ++ n2 ++ [_]). rewrite Ht2, Ht.
        split; [now rewrite <- !(@app_assoc event)|].
        now rewrite !List.filter_app, Hn, Hn2.
    + cbn [fst snd trace]. split; [reflexivity|].
      eexists (n1 ++ n2 ++ [_]). rewrite Ht2, Ht.
      split; [now rewrite <- !(@app_assoc event)|].
      now rewrite !List.filter_app, Hn, Hn2.
  - cbn [fst snd trace]. split; [reflexivity|]. eexists (n1 ++ [_]). rewrite Ht.
    split; [now rewrite <- !(@app_assoc event)|].
    now rewrite List.filter_app, Hn.
Qed.

End RoundTrip.

Lemma chat_constructs_nothing_once_warm_witness :
  let warm := {| qdrant_client := qdrant_client Samples.loaded_service;
                 embedding_model := embedding_model Samples.loaded_service;
                 llm_client := Some OpenAI_client |} in
  snd (fst (chat Fake.external Fake.builtins Fake.config (lit "q") None warm
              Samples.world)) = warm.
Proof.
  intros warm.
  apply (chat_constructs_nothing_once_warm Fake.external Fake.builtins Fake.config
           (lit "q") None warm Samples.world
           (SentenceTransformer_of (lit "paraphrase-multilingual-MiniLM-L12-v2"))
           OpenAI_client); reflexivity.
Defined.
